(** * Brawlhalla ModLoader: the import queue, the two import handlers and the
      notification handler of [main.py], embedded in Rocq.

    The Python code is translated function by function.  Mutable objects
    become records that are passed in and returned, a generator becomes a
    resumable step function, calls into Qt, the engine ([core]) and the
    archive libraries become events of a trace, and a Python exception
    becomes the [Raised] outcome of a call. *)

From Stdlib Require Import Ascii.
From stdpp Require Import base strings list gmap pretty.


(** ** Python [str] methods used by [main.py] *)

Module Py.

(** [s.startswith(p)]. *)
Fixpoint startswith (s p : string) {struct p} : bool :=
  match p, s with
  | "", _ => true
  | String c p', String d s' => if decide (c = d) then startswith s' p' else false
  | String _ _, "" => false
  end.

(** [s.endswith(p)]: [p] read backwards starts [s] read backwards. *)
Definition endswith (s p : string) : bool :=
  startswith (String.rev s) (String.rev p).

(** [s.split(c, 1)]: cut at the first [c]; a string without [c] gives the
    one-element list. *)
Fixpoint split1 (c : ascii) (s : string) : list string :=
  match s with
  | "" => [""]
  | String d s' =>
      if decide (d = c) then [""; s']
      else match split1 c s' with
           | [a] => [String d a]
           | a :: rest => String d a :: rest
           | [] => []
           end
  end.

(** [s.split(c)]: cut at every [c]; never the empty list. *)
Fixpoint split (c : ascii) (s : string) : list string :=
  match s with
  | "" => [""]
  | String d s' =>
      if decide (d = c) then "" :: split c s'
      else match split c s' with
           | a :: rest => String d a :: rest
           | [] => [String d ""]
           end
  end.

(** [s.lstrip(c)], [s.rstrip(c)] and [s.strip(c)] for a one-character set. *)
Fixpoint lstrip (c : ascii) (s : string) : string :=
  match s with
  | String d s' => if decide (d = c) then lstrip c s' else s
  | "" => ""
  end.

Fixpoint rstrip (c : ascii) (s : string) : string :=
  match s with
  | "" => ""
  | String d s' =>
      match rstrip c s' with
      | "" => if decide (d = c) then "" else String d ""
      | r => String d r
      end
  end.

Definition strip (c : ascii) (s : string) : string :=
  rstrip c (lstrip c s).

(** [s] consists of the character [c] only. *)
Fixpoint all_char (c : ascii) (s : string) : bool :=
  match s with
  | "" => true
  | String d s' => if decide (d = c) then all_char c s' else false
  end.

(** [c in s] for a character. *)
Fixpoint contains (c : ascii) (s : string) : bool :=
  match s with
  | "" => false
  | String d s' => if decide (d = c) then true else contains c s'
  end.

(** The outcome of a call: it returns, or an exception leaves it. *)
Inductive exn :=
  | IndexError | KeyError | ValueError | AttributeError | TypeError
  | FileNotFoundError | OSError
  | RarCannotExec
  | OtherError (what : string).

Inductive outcome (A : Type) :=
  | Returned (a : A)
  | Raised (e : exn).
Arguments Returned {A} a.
Arguments Raised {A} e.

(** [l[i]] on a list or tuple. *)
Definition index {A} (l : list A) (i : nat) : outcome A :=
  match l !! i with
  | Some a => Returned a
  | None => Raised IndexError
  end.

End Py.

(** ** [class ImportQueue] *)

Module ImportQueueModel.

(** The two Qt signals of [ModLoader] that are handed to the queue. *)
Inductive Signal := queueUrlSignal | queueFileSignal.

Record ImportQueue := mkImportQueue {
  urlQueue : list string;
  signalUrl : option Signal;
  _readUrlQueue : bool;
  fileQueue : list string;
  signalFile : option Signal;
  _readFileQueue : bool
}.

(** [__init__] *)
Definition init : ImportQueue :=
  mkImportQueue [] None false [] None false.

Definition setUrlSignal (s : Signal) (q : ImportQueue) : ImportQueue :=
  mkImportQueue (urlQueue q) (Some s) (_readUrlQueue q)
                (fileQueue q) (signalFile q) (_readFileQueue q).

Definition setFileSignal (s : Signal) (q : ImportQueue) : ImportQueue :=
  mkImportQueue (urlQueue q) (signalUrl q) (_readUrlQueue q)
                (fileQueue q) (Some s) (_readFileQueue q).

(** One turn of the loop of [_emitUrl] / [_emitFile]: without a signal the
    thread sleeps and tries again ([None]); with one it emits and ends. *)
Definition _emitUrl_turn (q : ImportQueue) : option Signal := signalUrl q.
Definition _emitFile_turn (q : ImportQueue) : option Signal := signalFile q.

(** [addUrl]: the new queue, and whether a waker thread was started. *)
Definition addUrl (url : string) (q : ImportQueue) : ImportQueue * bool :=
  (mkImportQueue (urlQueue q ++ [url]) (signalUrl q) (_readUrlQueue q)
                 (fileQueue q) (signalFile q) (_readFileQueue q),
   negb (_readUrlQueue q)).

Definition addFile (file : string) (q : ImportQueue) : ImportQueue * bool :=
  (mkImportQueue (urlQueue q) (signalUrl q) (_readUrlQueue q)
                 (fileQueue q ++ [file]) (signalFile q) (_readFileQueue q),
   negb (_readFileQueue q)).

(** A run of pushes, keeping the flags of the started wakers. *)
Fixpoint addUrls (urls : list string) (q : ImportQueue) : ImportQueue * list bool :=
  match urls with
  | [] => (q, [])
  | u :: rest =>
      let '(q1, w) := addUrl u q in
      let '(q2, ws) := addUrls rest q1 in
      (q2, w :: ws)
  end.

Fixpoint addFiles (files : list string) (q : ImportQueue) : ImportQueue * list bool :=
  match files with
  | [] => (q, [])
  | f :: rest =>
      let '(q1, w) := addFile f q in
      let '(q2, ws) := addFiles rest q1 in
      (q2, w :: ws)
  end.

(** Where a generator object stands: not yet started, suspended at its
    [yield], or finished. *)
Inductive gen_pc := GenStart | GenYield | GenDone.

Definition set_readUrl (b : bool) (q : ImportQueue) : ImportQueue :=
  mkImportQueue (urlQueue q) (signalUrl q) b
                (fileQueue q) (signalFile q) (_readFileQueue q).

Definition set_readFile (b : bool) (q : ImportQueue) : ImportQueue :=
  mkImportQueue (urlQueue q) (signalUrl q) (_readUrlQueue q)
                (fileQueue q) (signalFile q) b.

(** [next()] on the generator of [iterUrl]: [Some x] is a yielded item,
    [None] is exhaustion. *)
Definition iterUrl_next (pc : gen_pc) (q : ImportQueue)
  : option string * gen_pc * ImportQueue :=
  match pc with
  | GenDone => (None, GenDone, q)
  | _ =>
      let q := match pc with GenStart => set_readUrl true q | _ => q end in
      match urlQueue q with
      | x :: rest =>
          (Some x, GenYield,
           mkImportQueue rest (signalUrl q) (_readUrlQueue q)
                         (fileQueue q) (signalFile q) (_readFileQueue q))
      | [] => (None, GenDone, set_readUrl false q)
      end
  end.

Definition iterFile_next (pc : gen_pc) (q : ImportQueue)
  : option string * gen_pc * ImportQueue :=
  match pc with
  | GenDone => (None, GenDone, q)
  | _ =>
      let q := match pc with GenStart => set_readFile true q | _ => q end in
      match fileQueue q with
      | x :: rest =>
          (Some x, GenYield,
           mkImportQueue (urlQueue q) (signalUrl q) (_readUrlQueue q)
                         rest (signalFile q) (_readFileQueue q))
      | [] => (None, GenDone, set_readFile false q)
      end
  end.

(** A [for] loop over the generator that only collects what is yielded;
    [fuel] bounds the number of [next()] calls. [None]: fuel ran out. *)
Fixpoint drainUrl (fuel : nat) (pc : gen_pc) (q : ImportQueue)
  : option (list string * ImportQueue) :=
  match fuel with
  | 0 => None
  | S fuel' =>
      match iterUrl_next pc q with
      | (Some x, pc', q') =>
          match drainUrl fuel' pc' q' with
          | Some (xs, q'') => Some (x :: xs, q'')
          | None => None
          end
      | (None, _, q') => Some ([], q')
      end
  end.

Fixpoint drainFile (fuel : nat) (pc : gen_pc) (q : ImportQueue)
  : option (list string * ImportQueue) :=
  match fuel with
  | 0 => None
  | S fuel' =>
      match iterFile_next pc q with
      | (Some x, pc', q') =>
          match drainFile fuel' pc' q' with
          | Some (xs, q'') => Some (x :: xs, q'')
          | None => None
          end
      | (None, _, q') => Some ([], q')
      end
  end.

(** [n] calls of [next()] on the generator, as a consumer that stops after
    [n] items does them: what was yielded and where that leaves the generator
    and the queue. *)
Fixpoint takeUrl (n : nat) (pc : gen_pc) (q : ImportQueue)
  : list string * gen_pc * ImportQueue :=
  match n with
  | 0 => ([], pc, q)
  | S n' =>
      match iterUrl_next pc q with
      | (Some x, pc', q') =>
          let '(xs, pc'', q'') := takeUrl n' pc' q' in (x :: xs, pc'', q'')
      | (None, pc', q') => ([], pc', q')
      end
  end.

Fixpoint takeFile (n : nat) (pc : gen_pc) (q : ImportQueue)
  : list string * gen_pc * ImportQueue :=
  match n with
  | 0 => ([], pc, q)
  | S n' =>
      match iterFile_next pc q with
      | (Some x, pc', q') =>
          let '(xs, pc'', q'') := takeFile n' pc' q' in (x :: xs, pc'', q'')
      | (None, pc', q') => ([], pc', q')
      end
  end.

End ImportQueueModel.

(** ** [os.path] (the POSIX flavour, [posixpath.py]) and the file system *)

Module OsPath.

(** [s.rpartition(c)] without the separator: the text before the last [c]
    and the text after it; [None] when [c] does not occur
    ([s.rfind(c) == -1]). *)
Fixpoint rcut (c : ascii) (s : string) : option (string * string) :=
  match s with
  | "" => None
  | String d s' =>
      match rcut c s' with
      | Some (h, t) => Some (String d h, t)
      | None => if decide (d = c) then Some ("", s') else None
      end
  end.

(** [os.path.split(p)]: the head loses its trailing slashes unless it
    consists of slashes only. *)
Definition split (p : string) : string * string :=
  match rcut "/" p with
  | None => ("", p)
  | Some (h, tail) =>
      let head := h +:+ "/" in
      (if decide (Py.lstrip "/" head = "") then head else Py.rstrip "/" head, tail)
  end.

(** [os.path.dirname(p)] *)
Definition dirname (p : string) : string := (split p).1.

(** [os.path.splitext(p)] ([genericpath._splitext]): the extension starts at
    the last dot of the last component, unless only dots precede it there. *)
Definition splitext (p : string) : string * string :=
  let '(dir, name) :=
    match rcut "/" p with
    | Some (h, t) => (h +:+ "/", t)
    | None => ("", p)
    end in
  match rcut "." name with
  | Some (r, e) =>
      if decide (Py.lstrip "." r = "") then (p, "")
      else (dir +:+ r, String "." e)
  | None => (p, "")
  end.

(** [os.path.join(a, b)]. *)
Definition join (a b : string) : string :=
  if Py.startswith b "/" then b
  else if decide (a = "") then b
  else if Py.endswith a "/" then a +:+ b
  else a +:+ "/" +:+ b.

(** One turn of the loop of [normpath] over the components. *)
Definition normpath_step (initial_slashes : nat) (new_comps : list string)
    (comp : string) : list string :=
  if bool_decide (comp = "" ∨ comp = ".") then new_comps
  else if bool_decide (comp ≠ ".."
                       ∨ (initial_slashes = 0 ∧ new_comps = [])
                       ∨ (new_comps ≠ [] ∧ last new_comps = Some ".."))
  then new_comps ++ [comp]
  else removelast new_comps.

(** [os.path.normpath(path)]. *)
Definition normpath (path : string) : string :=
  if decide (path = "") then "."
  else
    let initial_slashes :=
      if Py.startswith path "/"
      then if Py.startswith path "//" && negb (Py.startswith path "///")
           then 2 else 1
      else 0 in
    let comps := fold_left (normpath_step initial_slashes) (Py.split "/" path) [] in
    let path := String.concat "/" comps in
    let path := String.concat "" (replicate initial_slashes "/") +:+ path in
    if decide (path = "") then "." else path.

(** [os.path.abspath(path)], with [cwd] the value of [os.getcwd()]. *)
Definition abspath (cwd path : string) : string :=
  normpath (if Py.startswith path "/" then path else join cwd path).

(** What a path names: a regular file with its bytes, or a directory. *)
Inductive node :=
  | File (content : string)
  | Dir.

(** The file system, keyed by the path strings the program hands to the
    operating system. *)
Abbreviation filesystem := (gmap string node).

(** [os.path.exists(p)] *)
Definition exists_ (fs : filesystem) (p : string) : bool :=
  bool_decide (is_Some (fs !! p)).

(** [open(p, "rb").read()] *)
Definition read_file (fs : filesystem) (p : string) : Py.outcome string :=
  match fs !! p with
  | Some (File data) => Py.Returned data
  | Some Dir => Py.Raised Py.OSError
  | None => Py.Raised Py.FileNotFoundError
  end.


(** [open(p, "wb").write(data)]: the file is created or replaced. [open]
    raises [IsADirectoryError] when [p] is a directory,
    [FileNotFoundError] when the directory [p] is to be created in is
    missing and [NotADirectoryError] when that is a regular file; nothing
    is written then. *)
Definition write_file (fs : filesystem) (p data : string) : Py.outcome filesystem :=
  match fs !! p with
  | Some Dir => Py.Raised Py.OSError
  | _ =>
      if decide (dirname p = "") then Py.Returned (<[p := File data]> fs)
      else match fs !! dirname p with
           | Some Dir => Py.Returned (<[p := File data]> fs)
           | Some (File _) => Py.Raised Py.OSError
           | None => Py.Raised Py.FileNotFoundError
           end
  end.

(** A path is inside a directory when its absolute form is the absolute
    form of the directory, a slash, and a remainder. *)
Definition resides_in (cwd dir p : string) : Prop :=
  ∃ rest, abspath cwd p = abspath cwd dir +:+ "/" +:+ rest.

(** [os.remove(p)] *)
Definition remove (fs : filesystem) (p : string) : Py.outcome filesystem :=
  match fs !! p with
  | Some (File _) => Py.Returned (delete p fs)
  | Some Dir => Py.Raised Py.OSError
  | None => Py.Raised Py.FileNotFoundError
  end.

End OsPath.

(** ** What [ModLoader] does to the outside: Qt widgets, the engine, the
       network and the archive libraries *)

Module Effects.

(** The branch of the [if]/[elif] chain on the signature in [urlImport]. *)
Inductive ArchiveFormat := SevenZip | Rar | Zip | Unknown.

(** Python values found in the argument tuple of a notification. *)
Inductive value :=
  | Str (s : string)
  | Int (n : nat)
  | Strs (l : list string)
  | Bool (b : bool)
  | NoneV.

(** Calls that leave [main.py], in the order they are made. A text handed
    to a widget is recorded as the text an f-string makes of the value. *)
Inductive event :=
  | SetForeground
  | SetLoadingScreen
  | SetModsScreen
  | LoadingSetText (text : string)
  | CtlReloadMods
  | CtlGetModsData
  | CtlInstallMod (modHash : value)
  | ProgressSetMaximum (n : value)
  | ProgressSetTitle (text : string)
  | ProgressSetContent (text : string)
  | ProgressSetValue (n : nat)
  | ProgressAddValue
  | ProgressShow
  | ProgressHide
  | ProcessEvents
  | UrlRetrieve (url filename : string)
  | ArchiveOpen (fmt : ArchiveFormat) (path : string)
  | ArchiveExtract (fmt : ArchiveFormat) (name path : string)
  | AcceptSetTitle (text : string)
  | AcceptSetContent (text : string)
  | AcceptSetAccept (installs : value)
  | AcceptSetCancel
  | AcceptShow
  | ModsUpdateData
  | SelectedModButtonUpdateData
  | ModsRemoveAllMods
  | ModsAddMod
  | ShowError (title content : string)
  | Print (text : string).

(** The events that put a dialog in front of the user. *)
Definition shows_dialog (e : event) : bool :=
  match e with
  | ProgressShow | AcceptShow | ShowError _ _ => true
  | _ => false
  end.

Definition is_install (e : event) : bool :=
  match e with CtlInstallMod _ => true | _ => false end.

(** How [urllib.request.urlretrieve(url, filename, hook)] ends: the file
    holds the whole body; or the call raises, either before [filename] was
    opened for writing ([None]) or after part of the body was written. *)
Inductive download_result :=
  | Downloaded (body : string)
  | DownloadFailed (e : Py.exn) (written : option string).

(** The answers of the network and of [py7zr], [rarfile] and [zipfile]. *)
Record World := mkWorld {
  urlretrieve : string → download_result;
  (** opening the scratch file with the given content as a container and
      listing its entries ([getnames()] / [namelist()]) *)
  namelist : ArchiveFormat → string → Py.outcome (list string);
  (** [extract] of one entry *)
  extract : ArchiveFormat → string → string → Py.outcome unit;
  (** the text [traceback.format_exception] gives for the exception *)
  format_exception : Py.exn → string
}.

End Effects.

(** ** [ModLoader.fileImport] and [ModLoader.urlImport] *)

Module Imports.
Import Py Effects.

(** The attributes of [ModLoader] the two import handlers read. *)
Record ModLoader := mkModLoader {
  cwd : string;               (* [os.getcwd()] *)
  modsPath : string;
  controller : bool           (* [self.controller is not None] *)
}.

(** [reloadMods] *)
Definition reloadMods (self : ModLoader) : outcome unit * list event :=
  if controller self
  then (Returned (), [SetLoadingScreen; CtlReloadMods; CtlGetModsData])
  else (Raised AttributeError, [SetLoadingScreen]).

(** The name tried at turn [i] of the [while] loop of [fileImport]. *)
Definition numbered (fileNameSplit : string * string) (i : nat) : string :=
  fileNameSplit.1 +:+ " (" +:+ pretty i +:+ ")" +:+ fileNameSplit.2.

(** The [while] loop of [fileImport], started at [i]; it gives the final
    [i], or [None] when [fuel] turns were not enough. *)
Fixpoint free_index (fuel : nat) (fs : OsPath.filesystem) (modsPath : string)
    (fileNameSplit : string * string) (i : nat) : option nat :=
  match fuel with
  | 0 => None
  | S fuel' =>
      if OsPath.exists_ fs (OsPath.join modsPath (numbered fileNameSplit i))
      then free_index fuel' fs modsPath fileNameSplit (S i)
      else Some i
  end.

(** The test of the first [if] of [fileImport]. *)
Definition in_mods (self : ModLoader) (filePath : string) : bool :=
  startswith (OsPath.abspath (cwd self) filePath)
             (OsPath.abspath (cwd self) (modsPath self)).

(** The name [fileImport] writes to; [None] when [fuel] is too small. *)
Definition destination (fuel : nat) (self : ModLoader) (fs : OsPath.filesystem)
    (filePath : string) : option string :=
  let fileName := (OsPath.split filePath).2 in
  let fileNameSplit := OsPath.splitext fileName in
  if OsPath.exists_ fs (OsPath.join (modsPath self) fileName)
  then i ← free_index fuel fs (modsPath self) fileNameSplit 1;
       Some (numbered fileNameSplit i)
  else Some fileName.

(** [fileImport]: how the call ends, the file system and the calls made. *)
Definition fileImport (fuel : nat) (self : ModLoader) (fs : OsPath.filesystem)
    (filePath : string) : option (outcome unit * OsPath.filesystem * list event) :=
  if in_mods self filePath then Some (Returned (), fs, [SetForeground])
  else
    fileName ← destination fuel self fs filePath;
    match OsPath.read_file fs filePath with
    | Raised e => Some (Raised e, fs, [SetForeground])
    | Returned data =>
        match OsPath.write_file fs (OsPath.join (modsPath self) fileName) data with
        | Raised e => Some (Raised e, fs, [SetForeground])
        | Returned fs' =>
            let '(r, evs) := reloadMods self in
            Some (r, fs', SetForeground :: evs)
        end
    end.

(** [_signature = file.read(3)] followed by the [if]/[elif] chain. *)
Definition classify (_signature : string) : ArchiveFormat :=
  if startswith _signature "7z" then SevenZip
  else if startswith _signature "Rar" then Rar
  else if startswith _signature "PK" then Zip
  else Unknown.

Definition read3 (content : string) : string := String.substring 0 3 content.

(** The [for] loop over the entries of an opened archive. *)
Fixpoint extract_loop (w : World) (MOD_FILE_FORMAT : string) (fmt : ArchiveFormat)
    (modsPath : string) (names : list string) : outcome unit * list event :=
  match names with
  | [] => (Returned (), [])
  | file :: rest =>
      if endswith file ("." +:+ MOD_FILE_FORMAT)
      then
        let evs := [ProgressSetContent ("Extract: '" +:+ file +:+ "'");
                    ProcessEvents; ArchiveExtract fmt file modsPath] in
        match extract w fmt file modsPath with
        | Raised e => (Raised e, evs)
        | Returned _ =>
            let '(r, evs') := extract_loop w MOD_FILE_FORMAT fmt modsPath rest in
            (r, evs ++ evs')
        end
      else extract_loop w MOD_FILE_FORMAT fmt modsPath rest
  end.

(** One branch of the chain: open the container, list it, extract. *)
Definition extract_archive (w : World) (MOD_FILE_FORMAT : string)
    (fmt : ArchiveFormat) (archivePath content modsPath : string)
    : outcome unit * list event :=
  match fmt with
  | Unknown => (Returned (), [])
  | _ =>
      match namelist w fmt content with
      | Raised e => (Raised e, [ArchiveOpen fmt archivePath])
      | Returned names =>
          let '(r, evs) := extract_loop w MOD_FILE_FORMAT fmt modsPath names in
          (r, ArchiveOpen fmt archivePath :: evs)
      end
  end.

(** What [urlretrieve] leaves in the file system. The calls it makes to
    its report hook ([handleUpdateApp]) during the transfer are not recorded. *)
Definition retrieve (w : World) (fs : OsPath.filesystem) (zipUrl archivePath : string)
    : outcome unit * OsPath.filesystem :=
  match urlretrieve w zipUrl with
  | Downloaded body => (Returned (), <[archivePath := OsPath.File body]> fs)
  | DownloadFailed e None => (Raised e, fs)
  | DownloadFailed e (Some part) => (Raised e, <[archivePath := OsPath.File part]> fs)
  end.

(** The body of the [try] statement of [urlImport]. *)
Definition urlImport_try (w : World) (MOD_FILE_FORMAT : string) (self : ModLoader)
    (fs : OsPath.filesystem) (zipUrl archivePath : string)
    : outcome unit * OsPath.filesystem * list event :=
  let '(r, fs1) := retrieve w fs zipUrl archivePath in
  match r with
  | Raised e => (Raised e, fs1, [UrlRetrieve zipUrl archivePath])
  | Returned _ =>
      match OsPath.read_file fs1 archivePath with
      | Raised e => (Raised e, fs1, [UrlRetrieve zipUrl archivePath])
      | Returned content =>
          let fmt := classify (read3 content) in
          let '(r, evs) :=
            extract_archive w MOD_FILE_FORMAT fmt archivePath content (modsPath self) in
          match r with
          | Raised e => (Raised e, fs1, UrlRetrieve zipUrl archivePath :: evs)
          | Returned _ =>
              let '(r', evs') := reloadMods self in
              match r' with
              | Raised e =>
                  (Raised e, fs1, UrlRetrieve zipUrl archivePath :: evs ++ evs')
              | Returned _ =>
                  (Returned (), fs1,
                   UrlRetrieve zipUrl archivePath :: evs ++ evs' ++ [ProgressHide])
              end
          end
      end
  end.

(** What may be said of every [extract] call of a run: the entry is one of
    a listing the archive library gave for the branch taken, its name ends
    with the mod extension, and the target is the mods directory. *)
Definition extract_ok (w : World) (MOD_FILE_FORMAT modsPath : string)
    (e : event) : Prop :=
  match e with
  | ArchiveExtract fmt name path =>
      endswith name ("." +:+ MOD_FILE_FORMAT) = true
      ∧ path = modsPath
      ∧ fmt ≠ Unknown
      ∧ ∃ content names, namelist w fmt content = Returned names ∧ name ∈ names
  | _ => True
  end.

(** The two [except] clauses. *)
Definition urlImport_except (w : World) (e : exn) : list event :=
  match e with
  | RarCannotExec => [ShowError "Unpack error:" "WinRar 'unrar.exe' not found"]
  | _ => [ShowError "Unpack error:" (format_exception w e)]
  end.

(** The parsing at the head of [urlImport]: [Returned None] is the [else]
    branch with its [return]. *)
Definition parse_url (url : string) : outcome (option string) :=
  match index (split1 ":" url) 1 with
  | Raised e => Raised e
  | Returned rest =>
      let data := strip "/" rest in
      let splitData := split "," data in
      if decide (length splitData = 3)
      then match split "," data with
           | [tag; modId; dlId] => Returned (Some ("http://gamebanana.com/dl/" +:+ dlId))
           | _ => Raised ValueError
           end
      else Returned None
  end.

(** The calls of [urlImport] between the parsing and the [try] statement,
    after the [setForeground] that opens the method. *)
Definition url_head : list event :=
  [SetForeground; ProgressSetMaximum (Int 100); ProgressSetTitle "Download mod";
   ProgressSetContent ""; ProgressShow; ProcessEvents].

(** [urlImport] *)
Definition urlImport (w : World) (MOD_FILE_FORMAT : string) (self : ModLoader)
    (fs : OsPath.filesystem) (url : string)
    : outcome unit * OsPath.filesystem * list event :=
  match parse_url url with
  | Raised e => (Raised e, fs, [SetForeground])
  | Returned None => (Returned (), fs, [SetForeground])
  | Returned (Some zipUrl) =>
      let archivePath := OsPath.join (modsPath self) "_mod.archive" in
      let '(r, fs1, evs) := urlImport_try w MOD_FILE_FORMAT self fs zipUrl archivePath in
      let evs := match r with
                 | Raised e => evs ++ urlImport_except w e
                 | Returned _ => evs
                 end in
      (* finally: *)
      match OsPath.remove fs1 archivePath with
      | Raised e => (Raised e, fs1, url_head ++ evs)
      | Returned fs2 => (Returned (), fs2, url_head ++ evs)
      end
  end.

End Imports.

(** ** The name of a copy, in the words of the specification

    These definitions do not come from [fileImport]: they say, on the text
    of a path, what its base name, its stem and its extension are, so that
    the names [fileImport] computes can be compared with them. *)

Module CopyName.
Import Py.




End CopyName.

(** ** [ModLoader.controllerHandler] and [ModLoader.showErrorNotifications] *)

Module Router.
Import Py Effects.

(** The members of [core.NotificationType] that [main.py] names; any other
    member is [OtherNotificationType]. *)
Inductive NotificationType :=
  | LoadingMod | ModElementsCount
  | ModConflictSearchInSwf | ModConflictNotFound | ModConflict
  | InstallingModSwf | InstallingModSwfSprite | InstallingModSwfSound
  | InstallingModFile | InstallingModFileCache | InstallingModFinished
  | UninstallingModSwf | UninstallingModSwfSprite | UninstallingModSwfSound
  | UninstallingModFile | UninstallingModFinished
  | CompileModSourcesSpriteHasNoSymbolclass | CompileModSourcesSpriteEmpty
  | CompileModSourcesSpriteNotFoundInFolder | CompileModSourcesUnsupportedCategory
  | CompileModSourcesUnknownFile | CompileModSourcesSaveError
  | LoadingModIsEmpty
  | InstallingModNotFoundFileElement | InstallingModNotFoundGameSwf
  | InstallingModSwfScriptError | InstallingModSwfSoundSymbolclassNotExist
  | InstallingModSoundNotExist | InstallingModSwfSpriteSymbolclassNotExist
  | InstallingModSpriteNotExist
  | UninstallingModSwfOriginalElementNotFound | UninstallingModSwfElementNotFound
  | OtherNotificationType (name : string).

#[global] Instance NotificationType_eq_dec : EqDecision NotificationType.
Proof. solve_decision. Defined.

Record Notification := mkNotification {
  notificationType : NotificationType;
  args : list value
}.

(** The attributes of a mod object that the handler reads or writes. *)
Record ModClass := mkModClass {
  name : string;
  installed : bool
}.

(** The widget [self.mods]: its dictionary [mods] and whether
    [selectedModButton] is set. *)
Record Mods := mkMods {
  mods : gmap string ModClass;
  selectedModButton : bool
}.

(** The attributes of [ModLoader] the handler reads or writes. *)
Record ModLoader := mkModLoader {
  controller : bool;        (* [self.controller is not None] *)
  errors : list Notification;
  modsWidget : Mods
}.

(** What [controller.getData()] returns besides [None]: the tag
    ([core.Environment]) with its payload. *)
Inductive Data :=
  | Notification_ (notification : Notification)
  | ReloadMods
  | GetModsData (modsData : list (gmap string value))
  | GetModConflict (searching : bool) (modHash : value)
  | InstallMod (installing : bool) (modHash : value)
  | UninstallMod (uninstalling : bool) (modHash : value)
  | DeleteMod
  | SetModsPath
  | InstallBaseMod
  | OtherData (text : string).

(** A handler step: how it ends, the new attributes, the calls made. *)
Definition M (A : Type) : Type := ModLoader → outcome A * ModLoader * list event.

Definition ret {A} (a : A) : M A := λ self, (Returned a, self, []).

Definition bind {A B} (m : M A) (k : A → M B) : M B := λ self,
  match m self with
  | (Returned a, self1, evs1) =>
      let '(r, self2, evs2) := k a self1 in (r, self2, evs1 ++ evs2)
  | (Raised e, self1, evs1) => (Raised e, self1, evs1)
  end.

Definition call (e : event) : M unit := λ self, (Returned (), self, [e]).

Definition calls (evs : list event) : M unit := λ self, (Returned (), self, evs).

Definition lift {A} (o : outcome A) : M A := λ self, (o, self, []).

Definition get_self : M ModLoader := λ self, (Returned self, self, []).

Definition put_self (self' : ModLoader) : M unit := λ _, (Returned (), self', []).

#[global] Instance M_ret : MRet M := @ret.
#[global] Instance M_bind : MBind M := λ A B k m, bind m k.

(** [a, = t], [a, b = t]: tuple unpacking. *)
Definition unpack1 (t : list value) : outcome value :=
  match t with [a] => Returned a | _ => Raised ValueError end.

Definition unpack2 (t : list value) : outcome (value * value) :=
  match t with [a; b] => Returned (a, b) | _ => Raised ValueError end.

(** Truth value of a Python value ([x or y], [if x]). *)
Definition truthy (v : value) : bool :=
  match v with
  | Str s => negb (bool_decide (s = ""))
  | Int n => negb (bool_decide (n = 0))
  | Strs l => negb (bool_decide (l = []))
  | Bool b => b
  | NoneV => false
  end.

Definition nl : string := String "010" "".

Section Handler.

(** Parts of the program that are outside [main.py]: the text of a list of
    strings in an f-string, [repr] of a notification, and what the widget
    methods [addMod] and [removeAllMods] do to the widget. *)
Variable repr_strs : list string → string.
Variable repr_notification : Notification → string.
Variable addMod : list (string * value) → Mods → Mods.
Variable removeAllMods : Mods → Mods.

(** A value inside an f-string. *)
Definition str_ (v : value) : string :=
  match v with
  | Str s => s
  | Int n => pretty n
  | Strs l => repr_strs l
  | Bool b => if b then "True" else "False"
  | NoneV => "None"
  end.

(** [self.mods.mods[modHash]] *)
Definition mods_getitem (modHash : value) : M ModClass := λ self,
  match modHash with
  | Str h =>
      match mods (modsWidget self) !! h with
      | Some modClass => (Returned modClass, self, [])
      | None => (Raised KeyError, self, [])
      end
  | Strs _ => (Raised TypeError, self, [])
  | _ => (Raised KeyError, self, [])
  end.

(** [modClass.installed = b] for the mod object stored under [modHash]. *)
Definition set_installed (modHash : value) (b : bool) : M unit := λ self,
  match modHash with
  | Str h =>
      let w := modsWidget self in
      let w' := mkMods (alter (λ c, mkModClass (name c) b) h (mods w))
                       (selectedModButton w) in
      (Returned (), mkModLoader (controller self) (errors self) w', [])
  | _ => (Returned (), self, [])
  end.

(** [self.mods.selectedModButton.updateData()] *)
Definition selectedModButton_updateData : M unit := λ self,
  if selectedModButton (modsWidget self)
  then (Returned (), self, [SelectedModButtonUpdateData])
  else (Raised AttributeError, self, []).

(** The text chosen for one buffered notification in
    [showErrorNotifications]; the empty text when no branch applies. *)
Definition error_string (notif : Notification) : outcome string :=
  let arg i := match index (args notif) i with
               | Returned v => Returned (str_ v)
               | Raised e => Raised e
               end in
  let fmt1 (a z : string) :=
    match arg 1 with
    | Returned x => Returned (a +:+ x +:+ z)
    | Raised e => Raised e
    end in
  let fmt2 (a b z : string) :=
    match arg 1, arg 2 with
    | Returned x, Returned y => Returned (a +:+ x +:+ b +:+ y +:+ z)
    | Raised e, _ => Raised e
    | _, Raised e => Raised e
    end in
  match notificationType notif with
  | LoadingModIsEmpty => fmt1 "Mod '" "' is empty"
  | InstallingModNotFoundFileElement => fmt1 "Not found element '" "' in bmod "
  | InstallingModNotFoundGameSwf => fmt1 "Not found game file '" "'"
  | InstallingModSwfScriptError => fmt1 "Script '" "' not installed"
  | InstallingModSwfSoundSymbolclassNotExist => fmt2 "Not found sound '" "' in '" "'"
  | InstallingModSoundNotExist =>
      match arg 1, arg 2, arg 3 with
      | Returned x, Returned y, Returned z =>
          Returned ("Not found sound '" +:+ x +:+ " (" +:+ y +:+ ")' in '" +:+ z +:+ "'")
      | Raised e, _, _ => Raised e
      | _, Raised e, _ => Raised e
      | _, _, Raised e => Raised e
      end
  | InstallingModSwfSpriteSymbolclassNotExist => fmt2 "Not found sprite '" "' in '" "'"
  | InstallingModSpriteNotExist => fmt2 "Not found sprite '" " (" ")' in mod file"
  | UninstallingModSwfOriginalElementNotFound => fmt2 "Not found orig element '" "' in '" "'"
  | UninstallingModSwfElementNotFound => fmt2 "Not found mod element '" "' in '" "'"
  | _ => Returned ""
  end.

(** The body of the first [for] loop of [showErrorNotifications]: the list
    [errors] it builds. *)
Fixpoint error_lines (errorsNotifications : list Notification) : outcome (list string) :=
  match errorsNotifications with
  | [] => Returned []
  | notif :: rest =>
      match error_string notif with
      | Raised e => Raised e
      | Returned string =>
          let line := if bool_decide (string ≠ "") then string
                      else repr_notification notif in
          match error_lines rest with
          | Raised e => Raised e
          | Returned lines => Returned (line :: lines)
          end
      end
  end.

(** The second [for] loop: every entry followed by a newline. *)
Fixpoint report (errors : list string) : string :=
  match errors with
  | [] => ""
  | error :: rest => error +:+ nl +:+ report rest
  end.

(** [showErrorNotifications] *)
Definition showErrorNotifications : M unit :=
  self ← get_self;
  if bool_decide (errors self ≠ [])
  then
    let errorsNotifications := errors self in
    put_self (mkModLoader (controller self) [] (modsWidget self));;
    errors ← lift (error_lines errorsNotifications);
    if bool_decide (errors ≠ [])
    then call (ShowError "Errors:" (report errors))
    else ret ()
  else ret ().

(** The kinds of the [elif ntype in [...]] branch. *)
Definition soft_error (ntype : NotificationType) : bool :=
  match ntype with
  | CompileModSourcesSpriteHasNoSymbolclass
  | CompileModSourcesSpriteEmpty
  | CompileModSourcesSpriteNotFoundInFolder
  | CompileModSourcesUnsupportedCategory
  | CompileModSourcesUnknownFile
  | CompileModSourcesSaveError
  | LoadingModIsEmpty
  | InstallingModNotFoundFileElement
  | InstallingModNotFoundGameSwf
  | InstallingModSwfScriptError
  | InstallingModSwfSoundSymbolclassNotExist
  | InstallingModSoundNotExist
  | InstallingModSwfSpriteSymbolclassNotExist
  | InstallingModSpriteNotExist
  | UninstallingModSwfOriginalElementNotFound
  | UninstallingModSwfElementNotFound => true
  | _ => false
  end.

(** The values a [for] loop over [v] visits. *)
Definition iterate (v : value) : outcome (list string) :=
  match v with
  | Strs l => Returned l
  | Str s => Returned ((λ c, String c "") <$> String.list_ascii_of_string s)
  | _ => Raised TypeError
  end.

(** The [for] loop of the [ModConflict] branch: the text and the prints. *)
Fixpoint conflict_content (reg : gmap string ModClass) (content : string)
    (modConflictHashes : list string) : string * list event :=
  match modConflictHashes with
  | [] => (content, [])
  | modConflictHash :: rest =>
      match reg !! modConflictHash with
      | Some mod_ =>
          conflict_content reg (content +:+ nl +:+ "- " +:+ name mod_) rest
      | None =>
          let '(c, evs) :=
            conflict_content reg
              (content +:+ nl +:+ "- UNKNOWN MOD: " +:+ modConflictHash) rest in
          (c, Print "ERROR Один из установленных модов не найден в модлодере!" :: evs)
      end
  end.

(** Branches of the shape [a, b = notification.args; setContent(..); addValue()]. *)
Definition progress_step (notification : Notification) (text : value → string)
    (add : bool) : M unit :=
  '(_, x) ← lift (unpack2 (args notification));
  call (ProgressSetContent (text x));;
  if add then call ProgressAddValue else ret ().

(** The [if]/[elif] chain on [ntype]. *)
Definition handleNotification (notification : Notification) : M unit :=
  match notificationType notification with
  | LoadingMod =>
      modPath ← lift (index (args notification) 0);
      call (LoadingSetText ("Loading mod '" +:+
              (if truthy modPath then str_ modPath else "from cache") +:+ "'"))
  | ModElementsCount =>
      '(_, count) ← lift (unpack2 (args notification));
      call (ProgressSetMaximum count)
  | ModConflictSearchInSwf =>
      progress_step notification (λ swfName, "Searching in: " +:+ str_ swfName) true
  | ModConflictNotFound =>
      modHash ← lift (unpack1 (args notification));
      call (ProgressSetValue 0);;
      call (CtlInstallMod modHash)
  | ModConflict =>
      '(modHash, modConflictHashes) ← lift (unpack2 (args notification));
      call (AcceptSetTitle "Conflict mods!");;
      hashes ← lift (iterate modConflictHashes);
      self ← get_self;
      let '(content, prints) := conflict_content (mods (modsWidget self)) "Mods:" hashes in
      calls prints;;
      call (AcceptSetContent content);;
      call (AcceptSetAccept modHash);;
      call AcceptSetCancel;;
      call ProgressHide;;
      call AcceptShow
  | InstallingModSwf =>
      progress_step notification (λ swfName, "Open game file: " +:+ str_ swfName) false
  | InstallingModSwfSprite =>
      progress_step notification (λ sprite, "Installing sprite: " +:+ str_ sprite) true
  | InstallingModSwfSound =>
      progress_step notification (λ sound, "Installing sound: " +:+ str_ sound) true
  | InstallingModFile =>
      progress_step notification (λ fileName, "Installing file: " +:+ str_ fileName) true
  | InstallingModFileCache =>
      '(_, fileName) ← lift (unpack2 (args notification));
      call (ProgressSetContent (str_ fileName));;
      call ProgressAddValue
  | InstallingModFinished =>
      modHash ← lift (index (args notification) 0);
      _ ← mods_getitem modHash;
      set_installed modHash true;;
      call ModsUpdateData;;
      selectedModButton_updateData;;
      call ProgressHide;;
      showErrorNotifications
  | UninstallingModSwf =>
      progress_step notification str_ false
  | UninstallingModSwfSprite
  | UninstallingModSwfSound
  | UninstallingModFile =>
      progress_step notification str_ true
  | UninstallingModFinished =>
      modHash ← lift (index (args notification) 0);
      _ ← mods_getitem modHash;
      set_installed modHash false;;
      call ModsUpdateData;;
      selectedModButton_updateData;;
      call ProgressHide;;
      showErrorNotifications
  | ntype =>
      if soft_error ntype
      then self ← get_self;
           put_self (mkModLoader (controller self) (errors self ++ [notification])
                                 (modsWidget self))
      else ret ()
  end.

(** [modData.get(key, default)] for the twelve keyword arguments of [addMod]. *)
Definition addMod_kwargs (modData : gmap string value) : list (string * value) :=
  let get (key : string) (dflt : value) := (key, default dflt (modData !! key)) in
  [get "gameVersion" (Str ""); get "name" (Str ""); get "author" (Str "");
   get "version" (Str ""); get "description" (Str ""); get "tags" (Strs []);
   get "previewsPaths" (Strs []); get "hash" (Str ""); get "platform" (Str "");
   get "installed" (Bool false); get "currentVersion" (Bool false);
   get "modFileExist" (Bool false)].

(** A change of the widget [self.mods] made by one of its own methods. *)
Definition on_mods (f : Mods → Mods) (e : event) : M unit := λ self,
  (Returned (),
   mkModLoader (controller self) (errors self) (f (modsWidget self)), [e]).

(** The [for] loop of the [GetModsData] branch. *)
Fixpoint addMods (modsData : list (gmap string value)) : M unit :=
  match modsData with
  | [] => ret ()
  | modData :: rest =>
      on_mods (addMod (addMod_kwargs modData)) ModsAddMod;;
      addMods rest
  end.

(** The three branches that open the progress dialog for a started
    operation. *)
Definition started (flag : bool) (modHash : value) (title : string → string)
    (content : string) : M unit :=
  if flag
  then modClass ← mods_getitem modHash;
       call (ProgressSetTitle (title (name modClass)));;
       call (ProgressSetContent content);;
       call ProgressShow
  else ret ().

(** [controllerHandler]; [data] is what [self.controller.getData()] returns
    when the handler gets to call it. *)
Definition controllerHandler (data : option Data) : M unit :=
  self ← get_self;
  if negb (controller self) then ret ()
  else
    match data with
    | None => ret ()
    | Some (Notification_ notification) => handleNotification notification
    | Some ReloadMods => on_mods removeAllMods ModsRemoveAllMods
    | Some (GetModsData modsData) =>
        addMods modsData;;
        call SetModsScreen;;
        showErrorNotifications
    | Some (GetModConflict searching modHash) =>
        started searching modHash
          (λ n, "Searching conflicts '" +:+ n +:+ "'...") "Searching..."
    | Some (InstallMod installing modHash) =>
        started installing modHash
          (λ n, "Installing mod '" +:+ n +:+ "'...") "Loading mod..."
    | Some (UninstallMod uninstalling modHash) =>
        started uninstalling modHash
          (λ n, "Uninstalling mod '" +:+ n +:+ "'...") ""
    | Some DeleteMod => ret ()
    | Some SetModsPath => ret ()
    | Some InstallBaseMod => call (LoadingSetText "Installing base mod...")
    | Some (OtherData text) => call (Print ("Controller <- " +:+ text +:+ nl))
    end.

(** The timer calls the handler once per poll; an exception ends that call
    only. The outcome of every call, the final attributes and all calls. *)
Fixpoint run (polls : list Data) (self : ModLoader)
  : list (outcome unit) * ModLoader * list event :=
  match polls with
  | [] => ([], self, [])
  | data :: rest =>
      let '(r, self1, evs1) := controllerHandler (Some data) self in
      let '(rs, self2, evs2) := run rest self1 in
      (r :: rs, self2, evs1 ++ evs2)
  end.

End Handler.

(** The least number of arguments with which [showErrorNotifications] can
    format a notification of the given kind (one more than the largest
    index it reads). *)
Definition args_needed (ntype : NotificationType) : nat :=
  match ntype with
  | LoadingModIsEmpty | InstallingModNotFoundFileElement
  | InstallingModNotFoundGameSwf | InstallingModSwfScriptError => 2
  | InstallingModSwfSoundSymbolclassNotExist
  | InstallingModSwfSpriteSymbolclassNotExist | InstallingModSpriteNotExist
  | UninstallingModSwfOriginalElementNotFound
  | UninstallingModSwfElementNotFound => 3
  | InstallingModSoundNotExist => 4
  | _ => 0
  end.




End Router.

(** ** Concrete situations used in the examples below *)

Module Samples.
Import Py Effects.

(** A loader started in [/app], with the engine running. *)
Definition loader : Imports.ModLoader :=
  Imports.mkModLoader "/app" "/app/Mods" true.

(** A mod [a.bmod] is installed and another [a.bmod] waits in a home
    directory. *)
Definition fs_taken : OsPath.filesystem :=
  {[ "/app/Mods" := OsPath.Dir;
     "/app/Mods/a.bmod" := OsPath.File "old";
     "/home/user/a.bmod" := OsPath.File "new" ]}.

(** A mod file in a directory next to the mods directory. *)
Definition fs_sibling : OsPath.filesystem :=
  {[ "/app/Mods" := OsPath.Dir;
     "/app/Mods2/a.bmod" := OsPath.File "data" ]}.

Definition fs_empty_mods : OsPath.filesystem := {[ "/app/Mods" := OsPath.Dir ]}.

(** No connection: [urlretrieve] raises before it opens the scratch file. *)
Definition offline : World :=
  mkWorld (λ _, DownloadFailed (OtherError "URLError") None)
          (λ _ _, Returned []) (λ _ _ _, Returned ()) (λ _, "Traceback").

(** The download is a zip archive with two mods and a text file. *)
Definition zip_world : World :=
  mkWorld (λ _, Downloaded "PK-archive")
          (λ _ _, Returned ["a.bmod"; "readme.txt"; "skins/b.bmod"])
          (λ _ _ _, Returned ()) (λ _, "Traceback").

(** The download is an image. *)
Definition gif_world : World :=
  mkWorld (λ _, Downloaded "GIF89a")
          (λ _ _, Raised (OtherError "not an archive"))
          (λ _ _ _, Returned ()) (λ _, "Traceback").

Definition repr_strs (l : list string) : string := "[...]".
Definition repr_notification (n : Router.Notification) : string := "<Notification>".
Definition addMod (kwargs : list (string * value)) (w : Router.Mods) : Router.Mods := w.
Definition removeAllMods (w : Router.Mods) : Router.Mods :=
  Router.mkMods ∅ false.

(** One mod is listed and selected. *)
Definition one_mod : Router.Mods :=
  Router.mkMods {[ "h1" := Router.mkModClass "Mod One" false ]} true.

Definition three_soft_errors : list Router.Notification :=
  [Router.mkNotification Router.LoadingModIsEmpty [Str "h1"; Str "x.bmod"];
   Router.mkNotification Router.CompileModSourcesSaveError [Str "h1"];
   Router.mkNotification Router.InstallingModSoundNotExist
     [Str "h1"; Str "hit"; Int 3; Str "Sounds.swf"]].

Definition install_finished : Router.Data :=
  Router.Notification_ (Router.mkNotification Router.InstallingModFinished [Str "h1"]).

End Samples.

(** ** [ModLoader.queueUrl] and [ModLoader.queueFile] *)

Module Slots.
Import Py Effects ImportQueueModel.

(** [queueUrl]: the [for] loop over [iterUrl()] with [urlImport] as its
    body. An exception of the body leaves the loop and the method; the
    generator stays where it was suspended. [fuel] bounds the number of
    [next()] calls. *)
Fixpoint queueUrl (fuel : nat) (w : World) (MOD_FILE_FORMAT : string)
    (self : Imports.ModLoader) (pc : gen_pc) (q : ImportQueue)
    (fs : OsPath.filesystem)
  : option (outcome unit * gen_pc * ImportQueue * OsPath.filesystem * list event) :=
  match fuel with
  | 0 => None
  | S fuel' =>
      match iterUrl_next pc q with
      | (None, pc', q') => Some (Returned (), pc', q', fs, [])
      | (Some url, pc', q') =>
          match Imports.urlImport w MOD_FILE_FORMAT self fs url with
          | (Raised e, fs', evs) => Some (Raised e, pc', q', fs', evs)
          | (Returned _, fs', evs) =>
              match queueUrl fuel' w MOD_FILE_FORMAT self pc' q' fs' with
              | Some (r, pc'', q'', fs'', evs') =>
                  Some (r, pc'', q'', fs'', evs ++ evs')
              | None => None
              end
          end
      end
  end.

(** [queueFile]: the same loop over [iterFile()] with [fileImport] as its
    body; [fuel] also bounds the [while] loop of each [fileImport]. *)
Fixpoint queueFile (fuel : nat) (self : Imports.ModLoader) (pc : gen_pc)
    (q : ImportQueue) (fs : OsPath.filesystem)
  : option (outcome unit * gen_pc * ImportQueue * OsPath.filesystem * list event) :=
  match fuel with
  | 0 => None
  | S fuel' =>
      match iterFile_next pc q with
      | (None, pc', q') => Some (Returned (), pc', q', fs, [])
      | (Some file, pc', q') =>
          match Imports.fileImport fuel' self fs file with
          | None => None
          | Some (Raised e, fs', evs) => Some (Raised e, pc', q', fs', evs)
          | Some (Returned _, fs', evs) =>
              match queueFile fuel' self pc' q' fs' with
              | Some (r, pc'', q'', fs'', evs') =>
                  Some (r, pc'', q'', fs'', evs ++ evs')
              | None => None
              end
          end
      end
  end.

(** The imports of a list of URLs one after the other, up to the first one
    that raises: how that ends, the URLs not reached, the file system and
    the calls. *)
Fixpoint import_urls (w : World) (MOD_FILE_FORMAT : string)
    (self : Imports.ModLoader) (fs : OsPath.filesystem) (urls : list string)
  : outcome unit * list string * OsPath.filesystem * list event :=
  match urls with
  | [] => (Returned (), [], fs, [])
  | url :: rest =>
      match Imports.urlImport w MOD_FILE_FORMAT self fs url with
      | (Raised e, fs', evs) => (Raised e, rest, fs', evs)
      | (Returned _, fs', evs) =>
          let '(r, rest_, fs'', evs') := import_urls w MOD_FILE_FORMAT self fs' rest in
          (r, rest_, fs'', evs ++ evs')
      end
  end.

(** The same for a list of files, each [fileImport] with [fuel] turns. *)
Fixpoint import_files (fuel : nat) (self : Imports.ModLoader)
    (fs : OsPath.filesystem) (files : list string)
  : option (outcome unit * list string * OsPath.filesystem * list event) :=
  match files with
  | [] => Some (Returned (), [], fs, [])
  | file :: rest =>
      match Imports.fileImport fuel self fs file with
      | None => None
      | Some (Raised e, fs', evs) => Some (Raised e, rest, fs', evs)
      | Some (Returned _, fs', evs) =>
          match import_files fuel self fs' rest with
          | Some (r, rest_, fs'', evs') => Some (r, rest_, fs'', evs ++ evs')
          | None => None
          end
      end
  end.

(** Whether a call ended with an exception. *)
Definition raised {A} (r : outcome A) : bool :=
  match r with Raised _ => true | Returned _ => false end.

End Slots.

(** ** The calls of a run of [urlImport], spelled out *)

Module Traces.
Import Py Effects.

(** The three calls made for one extracted entry. *)
Definition extract_step (fmt : ArchiveFormat) (modsPath file : string)
  : list event :=
  [ProgressSetContent ("Extract: '" +:+ file +:+ "'"); ProcessEvents;
   ArchiveExtract fmt file modsPath].

(** The calls made for the entries of a listing that end with the mod
    extension, in the order of the listing. *)
Definition extract_steps (MOD_FILE_FORMAT : string) (fmt : ArchiveFormat)
    (modsPath : string) (names : list string) : list event :=
  List.flat_map (extract_step fmt modsPath)
    (List.filter (λ file, endswith file ("." +:+ MOD_FILE_FORMAT)) names).

(** The entry is no mod file, or its extraction returns. *)
Definition extracts (w : World) (MOD_FILE_FORMAT : string) (fmt : ArchiveFormat)
    (modsPath file : string) : Prop :=
  endswith file ("." +:+ MOD_FILE_FORMAT) = true →
  extract w fmt file modsPath = Returned ().

End Traces.

(** ** Notions used to state what the handler does and never does *)

Module RouterLaws.
Import Py Effects Router.

(** The three kinds of data at which [controllerHandler] calls
    [showErrorNotifications]. *)
Definition flushes (data : Data) : bool :=
  match data with
  | GetModsData _ => true
  | Notification_ notification =>
      match notificationType notification with
      | InstallingModFinished | UninstallingModFinished => true
      | _ => false
      end
  | _ => false
  end.

(** The notification a piece of data adds to [errors], if any. *)
Definition buffered (data : Data) : option Notification :=
  match data with
  | Notification_ notification =>
      if soft_error (notificationType notification) then Some notification
      else None
  | _ => None
  end.

(** The line of the conflict dialog for one hash. *)
Definition conflict_line (reg : gmap string ModClass) (modConflictHash : string)
  : string :=
  nl +:+ match reg !! modConflictHash with
         | Some mod_ => "- " +:+ name mod_
         | None => "- UNKNOWN MOD: " +:+ modConflictHash
         end.

(** Every call made by a handler step, from any state, satisfies [P]. *)
Definition quiet {A} (P : event → Prop) (m : M A) : Prop :=
  ∀ self, Forall P (m self).2.

(** A handler step takes every state to an [R]-related one. *)
Definition keeps {A} (R : ModLoader → ModLoader → Prop) (m : M A) : Prop :=
  ∀ self, R self (m self).1.2.

Definition no_install (e : event) : Prop := is_install e = false.

Definition no_error_dialog (e : event) : Prop :=
  match e with ShowError _ _ => False | _ => True end.

Definition only_errors_dialog (e : event) : Prop :=
  match e with ShowError title _ => title = "Errors:" | _ => True end.

(** [errors] and [controller] are as they were. *)
Definition same_buffer (self self' : ModLoader) : Prop :=
  controller self' = controller self ∧ errors self' = errors self.

(** [controller] is as it was and [errors] is as it was or empty. *)
Definition same_or_flushed (self self' : ModLoader) : Prop :=
  controller self' = controller self
  ∧ (errors self' = errors self ∨ errors self' = []).

End RouterLaws.

(** ** More concrete situations *)

Module MoreSamples.
Import Py Effects.

(** A Rar archive with two mods; the second cannot be extracted because
    [unrar.exe] is missing. *)
Definition rar_world : World :=
  mkWorld (λ _, Downloaded "Rar!archive")
          (λ _ _, Returned ["a.bmod"; "b.bmod"; "c.bmod"])
          (λ _ name _, if decide (name = "b.bmod") then Raised RarCannotExec
                       else Returned ())
          (λ _, "Traceback").

(** A scratch file was left behind by an earlier run. *)
Definition fs_stale : OsPath.filesystem :=
  {[ "/app/Mods" := OsPath.Dir;
     "/app/Mods/_mod.archive" := OsPath.File "old" ]}.

(** A soft error whose argument tuple is too short for its text. *)
Definition short_error : Router.Notification :=
  Router.mkNotification Router.LoadingModIsEmpty [Str "h1"].

Definition one_mod_dict : gmap string Router.ModClass :=
  {[ "h1" := Router.mkModClass "Mod One" false ]}.



End MoreSamples.

(** * Properties *)

(** ** Strings *)

Section StringFacts.
Import Py.

Lemma app_nil_l_str (t : string) : "" +:+ t = t.
Proof. reflexivity. Qed.

Lemma app_cons_str (a : ascii) (s t : string) :
  String a s +:+ t = String a (s +:+ t).
Proof. reflexivity. Qed.

Lemma app_nil_r_str (s : string) : s +:+ "" = s.
Proof. induction s as [|a s IH]; [done|]. by rewrite app_cons_str, IH. Qed.

Lemma app_assoc_str (s t u : string) : (s +:+ t) +:+ u = s +:+ t +:+ u.
Proof.
  induction s as [|a s IH]; [done|]. by rewrite !app_cons_str, IH.
Qed.

Lemma app_length_str (s t : string) :
  String.length (s +:+ t) = String.length s + String.length t.
Proof.
  induction s as [|a s IH]; [done|]. rewrite app_cons_str. simpl. by rewrite IH.
Qed.

Lemma app_inj_r_str (x y z : string) : x +:+ z = y +:+ z → x = y.
Proof.
  revert y. induction x as [|a x IH]; intros [|b y] H; [done|..].
  - apply (f_equal String.length) in H.
    rewrite app_nil_l_str, app_length_str in H. simpl in H. lia.
  - apply (f_equal String.length) in H.
    rewrite app_nil_l_str, app_length_str in H. simpl in H. lia.
  - rewrite !app_cons_str in H. injection H as -> H. f_equal. by apply IH.
Qed.

Lemma startswith_spec (s p : string) :
  startswith s p = true ↔ ∃ r, s = p +:+ r.
Proof.
  revert s. induction p as [|c p IH]; intros s; simpl.
  - split; [intros _; by exists s | done].
  - destruct s as [|d s]; simpl.
    + split; [done | intros [r Hr]; by rewrite app_cons_str in Hr].
    + case_decide as Hcd.
      * subst d. rewrite IH. split; intros [r Hr]; exists r.
        -- by rewrite app_cons_str, Hr.
        -- rewrite app_cons_str in Hr. by injection Hr.
      * split; [done | intros [r Hr]]. rewrite app_cons_str in Hr.
        injection Hr as ? ?. by subst.
Qed.

Lemma startswith_app (p r : string) : startswith (p +:+ r) p = true.
Proof. apply startswith_spec. by exists r. Qed.

Lemma contains_app (c : ascii) (a b : string) :
  contains c (a +:+ b) = contains c a || contains c b.
Proof.
  induction a as [|d a IH]; [done|]. rewrite app_cons_str. simpl.
  by case_decide.
Qed.

(** A string without [c] does not start with [c], whatever follows it,
    unless it is empty. *)
Lemma startswith_no_char (c : ascii) (a b : string) :
  contains c a = false → startswith b (String c "") = false →
  startswith (a +:+ b) (String c "") = false.
Proof.
  destruct a as [|d a]; [done|]. rewrite app_cons_str. simpl.
  case_decide as Hd; [|by case_decide; subst].
  subst d. done.
Qed.

Lemma lstrip_not_startswith (c : ascii) (s : string) :
  startswith (lstrip c s) (String c "") = false.
Proof.
  induction s as [|d s IH]; [done|]. simpl. case_decide as Hd; [done|].
  simpl. by case_decide; subst.
Qed.

(** [split] gives at least one piece. *)
Lemma split_not_nil (c : ascii) (s : string) : split c s ≠ [].
Proof.
  induction s as [|d s IH]; [done|]. simpl. case_decide; [done|].
  by destruct (split c s).
Qed.

Lemma lstrip_decomp (c : ascii) (s : string) :
  ∃ a, s = a +:+ lstrip c s ∧ all_char c a = true.
Proof.
  induction s as [|d s (a & IH & Ha)]; [by exists ""|]. simpl.
  case_decide as Hd.
  - subst d. exists (String c a). rewrite app_cons_str, <- IH. simpl.
    by case_decide.
  - by exists "".
Qed.

Lemma rstrip_decomp (c : ascii) (s : string) :
  ∃ b, s = rstrip c s +:+ b ∧ all_char c b = true.
Proof.
  induction s as [|d s (b & IH & Hb)]; [by exists ""|]. simpl.
  destruct (rstrip c s) as [|e r] eqn:Hr.
  - case_decide as Hd.
    + subst d. exists (String c b). rewrite app_nil_l_str in *. subst b.
      split; [done|]. simpl. by case_decide.
    + exists b. by rewrite app_cons_str, <- IH.
  - exists b. by rewrite app_cons_str, <- IH.
Qed.

Lemma rstrip_keeps_start (c : ascii) (s : string) :
  startswith s (String c "") = false →
  startswith (rstrip c s) (String c "") = false.
Proof.
  destruct s as [|d s]; [done|]. simpl.
  case_decide as Hd; [done|]. intros _.
  destruct (rstrip c s); [|simpl; by case_decide].
  case_decide; [by subst|]. simpl. by case_decide.
Qed.

(** What [rstrip] returns does not end with the stripped character. *)
Lemma rstrip_no_trailing (c : ascii) (s t : string) :
  rstrip c s ≠ t +:+ String c "".
Proof.
  revert t. induction s as [|d s IH]; intros t; simpl.
  - by destruct t.
  - destruct (rstrip c s) as [|e r] eqn:Hr.
    + case_decide as Hd; [by destruct t|].
      destruct t as [|d' t]; [rewrite app_nil_l_str; congruence|].
      rewrite app_cons_str. intros [= <- Ht]. by destruct t.
    + destruct t as [|d' t]; [by rewrite app_nil_l_str|].
      rewrite app_cons_str. intros [= <- Ht]. by apply (IH t).
Qed.

(** The pieces of [split], put together with the separator, are the
    string; no piece holds the separator. *)
Lemma concat_split (c : ascii) (s : string) :
  String.concat (String c "") (split c s) = s.
Proof.
  induction s as [|d s IH]; [done|]. simpl.
  pose proof (split_not_nil c s) as Hne.
  case_decide as Hd.
  - subst d. destruct (split c s) as [|a rest]; [done|].
    change (String.concat (String c "") ("" :: a :: rest))
      with ("" +:+ String c "" +:+ String.concat (String c "") (a :: rest)).
    by rewrite IH.
  - destruct (split c s) as [|a [|b rest]]; [done|..].
    + simpl in *. by rewrite IH.
    + change (String.concat (String c "") (String d a :: b :: rest))
        with (String d a +:+ String c "" +:+ String.concat (String c "") (b :: rest)).
      change (String.concat (String c "") (a :: b :: rest))
        with (a +:+ String c "" +:+ String.concat (String c "") (b :: rest)) in IH.
      by rewrite app_cons_str, IH.
Qed.

Lemma split_pieces (c : ascii) (s : string) :
  Forall (λ piece, contains c piece = false) (split c s).
Proof.
  induction s as [|d s IH]; [by repeat constructor|]. simpl.
  case_decide as Hd; [by constructor|].
  destruct (split c s) as [|a rest]; [by repeat constructor; simpl; case_decide|].
  inversion IH; subst. constructor; [|done]. simpl. by case_decide.
Qed.

(** [split1]: one piece without [c], or the text before the first [c] and
    all the text after it. *)
Lemma split1_without (c : ascii) (s : string) :
  contains c s = false → split1 c s = [s].
Proof.
  induction s as [|d s IH]; [done|]. simpl.
  case_decide; [done|]. intros Hs. by rewrite (IH Hs).
Qed.

Lemma split1_with (c : ascii) (s : string) :
  contains c s = true →
  ∃ a b, split1 c s = [a; b] ∧ s = a +:+ String c b ∧ contains c a = false.
Proof.
  induction s as [|d s IH]; [done|]. simpl.
  case_decide as Hd.
  - subst d. intros _. exists "", s. by rewrite app_nil_l_str.
  - intros Hs. destruct (IH Hs) as (a & b & -> & -> & Ha).
    exists (String d a), b. rewrite app_cons_str. simpl.
    case_decide; [done|]. done.
Qed.

Lemma split_without (c : ascii) (a : string) :
  contains c a = false → split c a = [a].
Proof.
  induction a as [|d a IH]; simpl; [done|].
  case_decide; [done|]. intros Ha. by rewrite (IH Ha).
Qed.

Lemma split_at_sep (c : ascii) (a b : string) :
  contains c a = false → split c (a +:+ String c b) = a :: split c b.
Proof.
  induction a as [|d a IH]; simpl.
  - intros _. rewrite ?app_nil_l_str. simpl. by case_decide.
  - case_decide as Hd; [done|]. intros Ha. by rewrite (IH Ha).
Qed.

End StringFacts.

(** ** The import queue *)

Section ImportQueueFacts.
Import ImportQueueModel.

Lemma addUrls_spec urls q :
  addUrls urls q =
    (mkImportQueue (urlQueue q ++ urls) (signalUrl q) (_readUrlQueue q)
                   (fileQueue q) (signalFile q) (_readFileQueue q),
     replicate (length urls) (negb (_readUrlQueue q))).
Proof.
  revert q. induction urls as [|u rest IH]; intros q; simpl.
  - rewrite app_nil_r. by destruct q.
  - rewrite IH. simpl. by rewrite <- app_assoc.
Qed.

Lemma addFiles_spec files q :
  addFiles files q =
    (mkImportQueue (urlQueue q) (signalUrl q) (_readUrlQueue q)
                   (fileQueue q ++ files) (signalFile q) (_readFileQueue q),
     replicate (length files) (negb (_readFileQueue q))).
Proof.
  revert q. induction files as [|f rest IH]; intros q; simpl.
  - rewrite app_nil_r. by destruct q.
  - rewrite IH. simpl. by rewrite <- app_assoc.
Qed.

(** Resuming a suspended [iterUrl] generator drains what is left. *)
Lemma drainUrl_resume xs : ∀ fuel su b fq sf bf,
  length xs < fuel →
  drainUrl fuel GenYield (mkImportQueue xs su b fq sf bf) =
    Some (xs, mkImportQueue [] su false fq sf bf).
Proof.
  induction xs as [|x xs IH]; intros [|fuel] su b fq sf bf Hlen;
    simpl in *; try lia; try done.
  rewrite IH; [done | lia].
Qed.

Lemma drainFile_resume xs : ∀ fuel uq su bu sf b,
  length xs < fuel →
  drainFile fuel GenYield (mkImportQueue uq su bu xs sf b) =
    Some (xs, mkImportQueue uq su bu [] sf false).
Proof.
  induction xs as [|x xs IH]; intros [|fuel] uq su bu sf b Hlen;
    simpl in *; try lia; try done.
  rewrite IH; [done | lia].
Qed.

Lemma drainUrl_start xs fuel su b fq sf bf :
  length xs < fuel →
  drainUrl fuel GenStart (mkImportQueue xs su b fq sf bf) =
    Some (xs, mkImportQueue [] su false fq sf bf).
Proof.
  destruct fuel as [|fuel]; [lia|]. intros Hlen.
  destruct xs as [|x xs]; simpl; [done|].
  rewrite drainUrl_resume; [done | simpl in Hlen; lia].
Qed.

Lemma drainFile_start xs fuel uq su bu sf b :
  length xs < fuel →
  drainFile fuel GenStart (mkImportQueue uq su bu xs sf b) =
    Some (xs, mkImportQueue uq su bu [] sf false).
Proof.
  destruct fuel as [|fuel]; [lia|]. intros Hlen.
  destruct xs as [|x xs]; simpl; [done|].
  rewrite drainFile_resume; [done | simpl in Hlen; lia].
Qed.

(** Every [next()] that yields hands out the head of the queue and leaves
    the tail in the queue. *)
Lemma iterUrl_next_pops pc q x pc' q' :
  iterUrl_next pc q = (Some x, pc', q') →
  urlQueue q = x :: urlQueue q' ∧ fileQueue q' = fileQueue q.
Proof.
  destruct pc, q as [[|y ys] ? ? ? ? ?]; simpl; intros; by simplify_eq.
Qed.

Lemma iterFile_next_pops pc q x pc' q' :
  iterFile_next pc q = (Some x, pc', q') →
  fileQueue q = x :: fileQueue q' ∧ urlQueue q' = urlQueue q.
Proof.
  destruct pc, q as [? ? ? [|y ys] ? ?]; simpl; intros; by simplify_eq.
Qed.

Lemma takeUrl_resume done : ∀ todo su b fq sf bf,
  takeUrl (length done) GenYield (mkImportQueue (done ++ todo) su b fq sf bf) =
    (done, GenYield, mkImportQueue todo su b fq sf bf).
Proof.
  induction done as [|x done IH]; intros; simpl; [done|]. by rewrite IH.
Qed.

Lemma takeFile_resume done : ∀ todo uq su bu sf b,
  takeFile (length done) GenYield (mkImportQueue uq su bu (done ++ todo) sf b) =
    (done, GenYield, mkImportQueue uq su bu todo sf b).
Proof.
  induction done as [|x done IH]; intros; simpl; [done|]. by rewrite IH.
Qed.

Lemma takeUrl_start done todo su b fq sf bf :
  (takeUrl (length done) GenStart (mkImportQueue (done ++ todo) su b fq sf bf)).1.1 = done
  ∧ urlQueue (takeUrl (length done) GenStart
                (mkImportQueue (done ++ todo) su b fq sf bf)).2 = todo.
Proof.
  destruct done as [|x done]; simpl; [done|]. by rewrite takeUrl_resume.
Qed.

Lemma takeFile_start done todo uq su bu sf b :
  (takeFile (length done) GenStart (mkImportQueue uq su bu (done ++ todo) sf b)).1.1 = done
  ∧ fileQueue (takeFile (length done) GenStart
                 (mkImportQueue uq su bu (done ++ todo) sf b)).2 = todo.
Proof.
  destruct done as [|x done]; simpl; [done|]. by rewrite takeFile_resume.
Qed.

(** C1. Items pushed with [addUrl] / [addFile] while no signal is set (every
    such push starts a waker thread, which can only sleep), followed by
    [setUrlSignal] / [setFileSignal] and a drain of [iterUrl] / [iterFile]:
    the drain yields exactly the pushed items in push order and ends with an
    empty queue and the reading flag down; and after the first [length done]
    yields the queue holds exactly the items not yet yielded. *)
Theorem C1_drain_yields_pushes_in_order :
  ∀ (done todo : list string) (cb : Signal) (extra : nat),
    let items := done ++ todo in
    let qu := setUrlSignal cb (addUrls items init).1 in
    let qf := setFileSignal cb (addFiles items init).1 in
    (addUrls items init).2 = replicate (length items) true
    ∧ (addFiles items init).2 = replicate (length items) true
    ∧ _emitUrl_turn (addUrls items init).1 = None
    ∧ _emitFile_turn (addFiles items init).1 = None
    ∧ drainUrl (S (length items) + extra) GenStart qu
        = Some (items, setUrlSignal cb init)
    ∧ drainFile (S (length items) + extra) GenStart qf
        = Some (items, setFileSignal cb init)
    ∧ (takeUrl (length done) GenStart qu).1.1 = done
    ∧ urlQueue (takeUrl (length done) GenStart qu).2 = todo
    ∧ (takeFile (length done) GenStart qf).1.1 = done
    ∧ fileQueue (takeFile (length done) GenStart qf).2 = todo.
Proof.
  intros done todo cb extra items qu qf. subst qu qf items.
  rewrite addUrls_spec, addFiles_spec. cbn [fst snd init].
  unfold setUrlSignal, setFileSignal, _emitUrl_turn, _emitFile_turn.
  cbn [urlQueue signalUrl _readUrlQueue fileQueue signalFile _readFileQueue
       negb app].
  repeat split.
  - apply drainUrl_start. lia.
  - apply drainFile_start. lia.
  - apply (takeUrl_start done todo).
  - apply (takeUrl_start done todo).
  - apply (takeFile_start done todo).
  - apply (takeFile_start done todo).
Qed.

End ImportQueueFacts.

(** ** [os.path] and [fileImport] *)

Section FileImportFacts.
Import Py OsPath Effects Imports.

Lemma rcut_Some (c : ascii) (s h t : string) :
  rcut c s = Some (h, t) → s = h +:+ String c t ∧ contains c t = false.
Proof.
  revert h. induction s as [|d s IH]; intros h; simpl; [done|].
  destruct (rcut c s) as [[h' t']|] eqn:Hcut.
  - intros [= <- <-]. destruct (IH h' eq_refl) as [-> Ht].
    by rewrite app_cons_str.
  - case_decide as Hd; [|done]. intros [= <- <-]. subst d. split; [done|].
    clear IH. revert Hcut. induction s as [|e s IH]; simpl; [done|].
    destruct (rcut c s) as [[? ?]|]; [done|].
    case_decide; [done|]. auto.
Qed.

Lemma split_tail_no_slash (p : string) : contains "/" (split p).2 = false.
Proof.
  unfold split. destruct (rcut "/" p) as [[h t]|] eqn:Hcut; simpl.
  - by apply rcut_Some in Hcut as [_ ?].
  - revert Hcut. induction p as [|e s IH]; simpl; [done|].
    destruct (rcut "/" s) as [[? ?]|]; [done|].
    case_decide; [done|]. auto.
Qed.

Lemma splitext_concat (p : string) : (splitext p).1 +:+ (splitext p).2 = p.
Proof.
  unfold splitext.
  destruct (rcut "/" p) as [[h t]|] eqn:Hslash.
  - apply rcut_Some in Hslash as [-> _].
    destruct (rcut "." t) as [[r e]|] eqn:Hdot; simpl; [|apply app_nil_r_str].
    case_decide; simpl; [apply app_nil_r_str|].
    apply rcut_Some in Hdot as [-> _]. by rewrite !app_assoc_str.
  - destruct (rcut "." p) as [[r e]|] eqn:Hdot; simpl; [|apply app_nil_r_str].
    case_decide; simpl; [apply app_nil_r_str|].
    by apply rcut_Some in Hdot as [-> _].
Qed.

(** The names tried by the loop never start with a slash. *)
Lemma numbered_relative (p : string) (i : nat) :
  startswith (numbered (splitext (split p).2) i) "/" = false.
Proof.
  unfold numbered. apply startswith_no_char; [|done].
  pose proof (split_tail_no_slash p) as Htail.
  rewrite <- (splitext_concat (split p).2), contains_app in Htail.
  by apply orb_false_elim in Htail as [? _].
Qed.

Lemma join_relative (a b : string) :
  startswith b "/" = false → join a b = join a "" +:+ b.
Proof.
  intros Hb. unfold join. rewrite Hb. simpl.
  case_decide; [done|].
  destruct (endswith a "/"); by rewrite ?app_assoc_str, ?app_nil_r_str.
Qed.

Lemma numbered_inj (fileNameSplit : string * string) (i j : nat) :
  numbered fileNameSplit i = numbered fileNameSplit j → i = j.
Proof.
  unfold numbered. intros H.
  apply (inj (String.app _)) in H. apply (inj (String.app _)) in H.
  apply (inj pretty). revert H. apply app_inj_r_str.
Qed.

Lemma tried_path_inj (dir p : string) (i j : nat) :
  join dir (numbered (splitext (split p).2) i)
    = join dir (numbered (splitext (split p).2) j) → i = j.
Proof.
  rewrite (join_relative dir (numbered _ i)) by apply numbered_relative.
  rewrite (join_relative dir (numbered _ j)) by apply numbered_relative.
  intros H. apply (inj (String.app _)) in H. by apply numbered_inj in H.
Qed.

(** A finite file system cannot hold all of [size fs + 1] different paths. *)
Lemma free_slot (fs : filesystem) (f : nat → string) :
  (∀ i j, f i = f j → i = j) →
  ∃ n, 1 ≤ n ≤ S (size fs) ∧ fs !! f n = None.
Proof.
  intros Hinj.
  destruct (decide (Forall (λ n, is_Some (fs !! f n)) (seq 1 (S (size fs)))))
    as [Hall|Hnot].
  - exfalso.
    assert (NoDup (f <$> seq 1 (S (size fs)))) as Hnd.
    { apply NoDup_fmap_2_strong; [intros; by apply Hinj | apply NoDup_seq]. }
    pose proof (size_list_to_set (C:=gset string) _ Hnd) as Hsize.
    rewrite length_fmap, length_seq in Hsize.
    assert (list_to_set (C:=gset string) (f <$> seq 1 (S (size fs))) ⊆ dom fs) as Hsub.
    { intros x Hx. apply elem_of_list_to_set, list_elem_of_fmap in Hx
        as (n & -> & Hn).
      apply elem_of_dom. by eapply Forall_forall in Hall. }
    apply subseteq_size in Hsub. rewrite size_dom in Hsub. lia.
  - apply not_Forall_Exists in Hnot; [|apply _].
    apply Exists_exists in Hnot as (n & Hn & Hfree).
    apply elem_of_seq in Hn. exists n. split; [lia|].
    simpl in Hfree. by apply eq_None_not_Some.
Qed.

(** Below a free index there is a least free index. *)
Lemma least_free (fs : filesystem) (f : nat → string) (gap : nat) : ∀ i,
  fs !! f (i + gap) = None →
  ∃ n, i ≤ n ≤ i + gap ∧ fs !! f n = None
       ∧ ∀ k, i ≤ k < n → is_Some (fs !! f k).
Proof.
  induction gap as [|gap IH]; intros i Hfree.
  - exists i. rewrite Nat.add_0_r in Hfree. split; [lia|]. split; [done|]. lia.
  - destruct (fs !! f i) as [nd|] eqn:Hi.
    + destruct (IH (S i)) as (n & Hn & Hnfree & Hbelow).
      { by replace (S i + gap) with (i + S gap) by lia. }
      exists n. split; [lia|]. split; [done|].
      intros k Hk. destruct (decide (k = i)) as [->|]; [by rewrite Hi|].
      apply Hbelow. lia.
    + exists i. split; [lia|]. split; [done|]. lia.
Qed.

(** The loop stops at the least free index, given enough turns. *)
Lemma free_index_least (fs : filesystem) (dir : string) (sp : string * string)
    (n : nat) : ∀ fuel i,
  i ≤ n → n - i < fuel →
  fs !! join dir (numbered sp n) = None →
  (∀ k, i ≤ k < n → is_Some (fs !! join dir (numbered sp k))) →
  free_index fuel fs dir sp i = Some n.
Proof.
  induction fuel as [|fuel IH]; intros i Hin Hfuel Hfree Hbelow; [lia|].
  simpl. unfold exists_. destruct (decide (i = n)) as [->|Hne].
  - rewrite bool_decide_eq_false_2; [done|]. by rewrite Hfree; intros [? ?].
  - rewrite bool_decide_eq_true_2 by (apply Hbelow; lia).
    apply IH; [lia | lia | done |]. intros k Hk. apply Hbelow. lia.
Qed.

(** Paths inside the mods directory are left alone by [fileImport]. *)
Lemma fileImport_inside_noop (fuel : nat) (self : ModLoader) (fs : filesystem)
    (filePath : string) :
  resides_in (cwd self) (modsPath self) filePath →
  fileImport fuel self fs filePath = Some (Returned (), fs, [SetForeground]).
Proof.
  intros [rest Hrest]. unfold fileImport, in_mods. rewrite Hrest.
  by rewrite startswith_app.
Qed.

(** The decimal text of a number holds no slash. *)
Lemma pretty_N_go_no_slash (x : N) (s : string) :
  contains "/" s = false → contains "/" (pretty_N_go x s) = false.
Proof.
  revert s. induction (N.lt_wf_0 x) as [x _ IH]; intros s Hs.
  assert (x = 0 ∨ 0 < x)%N as [->|Hpos] by lia.
  - by rewrite pretty_N_go_0.
  - rewrite pretty_N_go_step by done. apply IH; [by apply N.div_lt|].
    simpl. rewrite Hs. unfold pretty_N_char.
    by repeat case_match.
Qed.

Lemma pretty_no_slash (n : nat) : contains "/" (pretty n) = false.
Proof.
  unfold pretty, pretty_nat, pretty, pretty_N. case_decide; [done|].
  by apply pretty_N_go_no_slash.
Qed.

Lemma rcut_without (c : ascii) (s : string) :
  contains c s = false → rcut c s = None.
Proof.
  induction s as [|d s IH]; simpl; [done|].
  case_decide; [done|]. intros Hs. by rewrite (IH Hs).
Qed.

Lemma rcut_at_last (c : ascii) (h t : string) :
  contains c t = false → rcut c (h +:+ String c t) = Some (h, t).
Proof.
  intros Ht. induction h as [|d h IH].
  - rewrite app_nil_l_str. simpl. rewrite (rcut_without c t Ht).
    by case_decide.
  - rewrite app_cons_str. simpl. by rewrite IH.
Qed.

(** Text without [c] appended to [s] lengthens the part after the last
    [c] only. *)
Lemma rcut_app_tail (c : ascii) (s t : string) :
  contains c t = false →
  rcut c (s +:+ t) = (λ ht, (ht.1, ht.2 +:+ t)) <$> rcut c s.
Proof.
  intros Ht. induction s as [|d s IH].
  - rewrite app_nil_l_str. by rewrite (rcut_without c t Ht).
  - rewrite app_cons_str. simpl. rewrite IH.
    destruct (rcut c s) as [[h t']|]; simpl; [done|]. by case_decide.
Qed.

Lemma dirname_app_tail (s t : string) :
  contains "/" t = false → dirname (s +:+ t) = dirname s.
Proof.
  intros Ht. unfold dirname, split. rewrite (rcut_app_tail "/" s t Ht).
  by destruct (rcut "/" s) as [[h t']|].
Qed.

Lemma contains_startswith (c : ascii) (s : string) :
  contains c s = false → startswith s (String c "") = false.
Proof. destruct s as [|d s]; simpl; [done|]. by repeat case_decide. Qed.

(** All slash-free names are created in the same directory. *)
Lemma dirname_join (dir name : string) :
  contains "/" name = false → dirname (join dir name) = dirname (join dir "").
Proof.
  intros Hname. rewrite (join_relative dir name) by by apply contains_startswith.
  by apply dirname_app_tail.
Qed.

Lemma numbered_no_slash (p : string) (i : nat) :
  contains "/" (numbered (splitext (split p).2) i) = false.
Proof.
  pose proof (split_tail_no_slash p) as Htail.
  rewrite <- (splitext_concat (split p).2), contains_app in Htail.
  apply orb_false_elim in Htail as [Hstem Hext].
  unfold numbered. rewrite !contains_app, Hstem, Hext, pretty_no_slash.
  reflexivity.
Qed.



Lemma write_file_Returned (fs fs' : filesystem) (p data : string) :
  write_file fs p data = Returned fs' → fs' = <[p := File data]> fs.
Proof.
  unfold write_file. intros H.
  destruct (fs !! p) as [[?|]|]; [| done |];
    (case_decide; [congruence|]);
    by destruct (fs !! dirname p) as [[?|]|]; simplify_eq.
Qed.





End FileImportFacts.

(** ** [urlImport] *)

Section UrlImportFacts.
Import Py Effects Imports.

(** Once the text after the first colon is there, parsing cannot raise. *)
Lemma parse_url_fields (url rest : string) :
  index (split1 ":" url) 1 = Returned rest →
  parse_url url =
    Returned match split "," (strip "/" rest) with
             | [_; _; dlId] => Some ("http://gamebanana.com/dl/" +:+ dlId)
             | _ => None
             end.
Proof.
  intros Hrest. unfold parse_url. rewrite Hrest.
  destruct (split "," (strip "/" rest)) as [|a [|b [|c [|d l]]]]; by simpl.
Qed.

Lemma index_split1 (url : string) :
  index (split1 ":" url) 1 =
    if contains ":" url
    then match split1 ":" url with
         | [_; rest] => Returned rest
         | _ => Raised IndexError
         end
    else Raised IndexError.
Proof.
  destruct (contains ":" url) eqn:Hc.
  - by destruct (split1_with _ _ Hc) as (a & b & -> & _).
  - by rewrite (split1_without _ _ Hc).
Qed.

(** The [try] body starts with the download. *)
Lemma urlImport_try_starts_with_download (w : World) (ext : string)
    (self : ModLoader) (fs : OsPath.filesystem) (zipUrl archivePath : string) :
  ∃ evs, (urlImport_try w ext self fs zipUrl archivePath).2
           = UrlRetrieve zipUrl archivePath :: evs.
Proof.
  unfold urlImport_try. repeat case_match; simpl; eauto.
Qed.

(** C10. A string without a colon makes [urlImport] raise [IndexError]
    right after [setForeground], before the fields are counted and with
    nothing downloaded or touched; a string with a colon passes the
    indexing, and its parsing does not raise. *)
Theorem C10_urlImport_without_colon_raises :
  ∀ (w : World) (MOD_FILE_FORMAT : string) (self : ModLoader)
    (fs : OsPath.filesystem) (url : string),
    (contains ":" url = false →
       index (split1 ":" url) 1 = Raised IndexError
       ∧ urlImport w MOD_FILE_FORMAT self fs url
           = (Raised IndexError, fs, [SetForeground]))
    ∧ (contains ":" url = true →
         ∃ rest parsed, index (split1 ":" url) 1 = Returned rest
                        ∧ parse_url url = Returned parsed).
Proof.
  intros w ext self fs url. split; intros Hc.
  - assert (index (split1 ":" url) 1 = Raised IndexError) as Hidx
      by (by rewrite index_split1, Hc).
    split; [done|]. unfold urlImport, parse_url. by rewrite Hidx.
  - destruct (split1_with _ _ Hc) as (a & rest & Hsplit & _).
    assert (index (split1 ":" url) 1 = Returned rest) as Hidx
      by (by rewrite Hsplit).
    eexists rest, _. split; [done|]. by apply parse_url_fields.
Qed.

(** C7. When the indexing after [split(":", 1)] succeeds, [rest] is the
    text after the first colon, [strip("/")] removes slashes at both ends
    only, and the fields are the comma-separated pieces.  With three fields
    the run goes on to call [urlretrieve] on the download address made from
    the third field; with any other number of fields [urlImport] returns
    having called [setForeground] only. *)
Theorem C7_urlImport_three_fields_or_nothing :
  ∀ (w : World) (MOD_FILE_FORMAT : string) (self : ModLoader)
    (fs : OsPath.filesystem) (url rest : string),
    index (split1 ":" url) 1 = Returned rest →
    let data := strip "/" rest in
    let fields := split "," data in
    (∃ scheme, url = scheme +:+ ":" +:+ rest ∧ contains ":" scheme = false)
    ∧ (∃ a b, rest = a +:+ data +:+ b
              ∧ all_char "/" a = true ∧ all_char "/" b = true)
    ∧ startswith data "/" = false
    ∧ (∀ t, data ≠ t +:+ "/")
    ∧ String.concat "," fields = data
    ∧ Forall (λ field, contains "," field = false) fields
    ∧ (length fields = 3 →
         ∃ tag modId dlId r fs' evs,
           fields = [tag; modId; dlId]
           ∧ urlImport w MOD_FILE_FORMAT self fs url
               = (r, fs',
                  url_head
                  ++ UrlRetrieve ("http://gamebanana.com/dl/" +:+ dlId)
                                 (OsPath.join (modsPath self) "_mod.archive")
                  :: evs))
    ∧ (length fields ≠ 3 →
         urlImport w MOD_FILE_FORMAT self fs url
           = (Returned (), fs, [SetForeground])).
Proof.
  intros w ext self fs url rest Hidx data fields.
  pose proof (parse_url_fields url rest Hidx) as Hparse.
  fold data in Hparse. fold fields in Hparse.
  split.
  { rewrite index_split1 in Hidx. destruct (contains ":" url) eqn:Hc; [|done].
    destruct (split1_with _ _ Hc) as (a & b & Hsplit & Hurl & Ha).
    rewrite Hsplit in Hidx. injection Hidx as ->. by exists a. }
  split.
  { destruct (lstrip_decomp "/" rest) as (a & Ha & Haa).
    destruct (rstrip_decomp "/" (lstrip "/" rest)) as (b & Hb & Hbb).
    exists a, b. split; [|done]. subst data. unfold strip.
    by rewrite <- Hb. }
  split; [apply rstrip_keeps_start, lstrip_not_startswith|].
  split; [apply rstrip_no_trailing|].
  split; [apply concat_split|].
  split; [apply split_pieces|].
  split.
  - intros Hlen.
    destruct fields as [|tag [|modId [|dlId [|? ?]]]]; simplify_eq/=.
    destruct (urlImport_try_starts_with_download w ext self fs
                ("http://gamebanana.com/dl/" +:+ dlId)
                (OsPath.join (modsPath self) "_mod.archive")) as [evs Hevs].
    unfold urlImport. rewrite Hparse.
    destruct (urlImport_try _ _ _ _ _ _) as [[r fs1] evs0].
    simpl in Hevs. subst evs0.
    exists tag, modId, dlId.
    destruct r as [[]|e], (OsPath.remove fs1 _) as [fs2|e']; simpl; by eexists _, _, _.
  - intros Hlen. unfold urlImport. rewrite Hparse.
    by destruct fields as [|? [|? [|? [|? ?]]]].
Qed.

(** Reading three bytes keeps what [startswith] sees of a prefix of at
    most three bytes. *)
Lemma startswith_read3 (content p : string) :
  String.length p ≤ 3 →
  startswith (read3 content) p = startswith content p.
Proof.
  unfold read3.
  destruct p as [|p1 [|p2 [|p3 [|p4 p]]]], content as [|c1 [|c2 [|c3 [|c4 c]]]];
    simpl; intros Hlen; try lia; repeat case_decide; done.
Qed.

(** C4. The branch taken by the chain on the signature is a function of
    the first three bytes of the scratch file: contents that agree there
    are classified alike; [7z], [Rar] and [PK] in front select the 7z, Rar
    and Zip branch; when none is in front no branch is taken, nothing is
    opened or extracted and nothing is raised, and (with a controller in
    place) the run reloads the mods, removes the scratch file and returns. *)
Theorem C4_signature_decides_the_format :
  ∀ (w : World) (MOD_FILE_FORMAT : string) (self : ModLoader)
    (fs : OsPath.filesystem) (content : string),
    (∀ content', read3 content = read3 content' →
       classify (read3 content) = classify (read3 content'))
    ∧ (∀ rest, classify (read3 ("7z" +:+ rest)) = SevenZip)
    ∧ (∀ rest, classify (read3 ("Rar" +:+ rest)) = Rar)
    ∧ (∀ rest, classify (read3 ("PK" +:+ rest)) = Zip)
    ∧ (startswith content "7z" = false → startswith content "Rar" = false →
       startswith content "PK" = false →
       classify (read3 content) = Unknown)
    ∧ (classify (read3 content) = Unknown →
       extract_archive w MOD_FILE_FORMAT (classify (read3 content))
           (OsPath.join (modsPath self) "_mod.archive") content (modsPath self)
         = (Returned (), [])
       ∧ ∀ url zipUrl,
           parse_url url = Returned (Some zipUrl) →
           urlretrieve w zipUrl = Downloaded content →
           controller self = true →
           let archivePath := OsPath.join (modsPath self) "_mod.archive" in
           urlImport w MOD_FILE_FORMAT self fs url
             = (Returned (),
                delete archivePath (<[archivePath := OsPath.File content]> fs),
                url_head ++ [UrlRetrieve zipUrl archivePath; SetLoadingScreen;
                             CtlReloadMods; CtlGetModsData; ProgressHide])).
Proof.
  intros w ext self fs content.
  split; [by intros content' ->|].
  split; [intros rest; unfold classify; by rewrite startswith_read3,
            startswith_app by (simpl; lia)|].
  split.
  { intros rest. unfold classify.
    rewrite !startswith_read3 by (simpl; lia). by rewrite startswith_app. }
  split.
  { intros rest. unfold classify.
    rewrite !startswith_read3 by (simpl; lia). by rewrite startswith_app. }
  split.
  { intros H7 HR HP. unfold classify.
    rewrite !startswith_read3 by (simpl; lia). by rewrite H7, HR, HP. }
  intros Hunk. rewrite Hunk. split; [done|].
  intros url zipUrl Hparse Hdl Hctl archivePath.
  unfold urlImport, urlImport_try, retrieve, reloadMods.
  rewrite Hparse, Hdl, Hctl. fold archivePath. unfold OsPath.read_file.
  rewrite lookup_insert_eq, Hunk. simpl. unfold OsPath.remove.
  by rewrite lookup_insert_eq.
Qed.

End UrlImportFacts.

Section ArchiveFacts.
Import Py Effects Imports.

Lemma extract_loop_events (w : World) (ext : string) (fmt : ArchiveFormat)
    (modsPath : string) (names : list string) :
  Forall (λ e, match e with
               | ArchiveExtract fmt' name path =>
                   endswith name ("." +:+ ext) = true ∧ path = modsPath
                   ∧ fmt' = fmt ∧ name ∈ names
               | _ => True
               end)
         (extract_loop w ext fmt modsPath names).2.
Proof.
  induction names as [|file rest IH]; simpl; [constructor|].
  destruct (endswith file ("." +:+ ext)) eqn:Hend.
  - assert (∀ e, match e with
                 | ArchiveExtract fmt' name path =>
                     endswith name ("." +:+ ext) = true ∧ path = modsPath
                     ∧ fmt' = fmt ∧ name ∈ rest
                 | _ => True
                 end →
                 match e with
                 | ArchiveExtract fmt' name path =>
                     endswith name ("." +:+ ext) = true ∧ path = modsPath
                     ∧ fmt' = fmt ∧ name ∈ file :: rest
                 | _ => True
                 end) as Hweak.
    { intros [] ; try done. intros (? & ? & ? & ?). repeat split; try done.
      by apply list_elem_of_further. }
    destruct (extract w fmt file modsPath).
    + destruct (extract_loop w ext fmt modsPath rest) as [r evs]. simpl in *.
      repeat constructor; [done|]. eapply Forall_impl; [exact IH | exact Hweak].
    + simpl. repeat constructor. done.
  - eapply Forall_impl; [exact IH|]. intros [] ; try done.
    intros (? & ? & ? & ?). repeat split; try done.
    by apply list_elem_of_further.
Qed.

Lemma extract_archive_events (w : World) (ext : string) (fmt : ArchiveFormat)
    (archivePath content modsPath : string) :
  Forall (extract_ok w ext modsPath)
         (extract_archive w ext fmt archivePath content modsPath).2.
Proof.
  assert (fmt ≠ Unknown →
          Forall (extract_ok w ext modsPath)
            (match namelist w fmt content with
             | Raised e => (Raised e, [ArchiveOpen fmt archivePath])
             | Returned names =>
                 let '(r, evs) := extract_loop w ext fmt modsPath names in
                 (r, ArchiveOpen fmt archivePath :: evs)
             end).2) as Hbranch.
  { intros Hfmt. destruct (namelist w fmt content) as [names|e] eqn:Hnames.
    - pose proof (extract_loop_events w ext fmt modsPath names) as Hloop.
      destruct (extract_loop w ext fmt modsPath names) as [r evs]. simpl in *.
      constructor; [done|]. eapply Forall_impl; [exact Hloop|].
      intros [] ; try done. intros (? & ? & -> & ?). repeat split; try done.
      by exists content, names.
    - simpl. by repeat constructor. }
  destruct fmt; simpl; [by apply Hbranch..|constructor].
Qed.

Lemma reloadMods_events (self : ModLoader) (P : event → Prop) :
  P SetLoadingScreen → P CtlReloadMods → P CtlGetModsData →
  Forall P (reloadMods self).2.
Proof.
  intros. unfold reloadMods. destruct (controller self); simpl;
    by repeat constructor.
Qed.

Lemma urlImport_try_events (w : World) (ext : string) (self : ModLoader)
    (fs : OsPath.filesystem) (zipUrl archivePath : string) :
  Forall (extract_ok w ext (modsPath self))
         (urlImport_try w ext self fs zipUrl archivePath).2.
Proof.
  unfold urlImport_try.
  destruct (retrieve w fs zipUrl archivePath) as [[[]|e] fs1];
    [|by repeat constructor].
  destruct (OsPath.read_file fs1 archivePath) as [content|e];
    [|by repeat constructor].
  pose proof (extract_archive_events w ext (classify (read3 content))
                archivePath content (modsPath self)) as Harch.
  destruct (extract_archive _ _ _ _ _ _) as [[[]|e] evs]; simpl in Harch;
    [|by constructor].
  pose proof (reloadMods_events self (extract_ok w ext (modsPath self))
                I I I) as Hreload.
  destruct (reloadMods self) as [[[]|e] evs']; simpl in *;
    constructor; try done; rewrite ?Forall_app; repeat split; try done.
  by repeat constructor.
Qed.

(** The run itself leaves every path but the scratch path as it was. *)
Lemma urlImport_frame (w : World) (ext : string) (self : ModLoader)
    (fs : OsPath.filesystem) (url p : string) :
  p ≠ OsPath.join (modsPath self) "_mod.archive" →
  (urlImport w ext self fs url).1.2 !! p = fs !! p.
Proof.
  intros Hp. unfold urlImport.
  destruct (parse_url url) as [[zipUrl|]|e]; [|done..].
  assert ((urlImport_try w ext self fs zipUrl
             (OsPath.join (modsPath self) "_mod.archive")).1.2 !! p = fs !! p)
    as Htry.
  { unfold urlImport_try, retrieve.
    destruct (urlretrieve w zipUrl) as [body|e [part|]]; simpl;
      repeat case_match; simpl; by rewrite ?lookup_insert_ne. }
  destruct (urlImport_try _ _ _ _ _ _) as [[r fs1] evs]. simpl in Htry.
  unfold OsPath.remove.
  destruct (fs1 !! OsPath.join (modsPath self) "_mod.archive") as [[data|]|];
    simpl; by rewrite ?lookup_delete_ne.
Qed.

(** C5. Every [extract] call of a run of [urlImport], whatever the branch
    (7z, Rar or Zip), is for an entry that the archive library listed and
    whose name ends with a dot and the mod extension, and it extracts into
    the mods directory; and the file system as [urlImport] itself changes it
    differs from the old one at the scratch path only. *)
Theorem C5_only_mod_entries_are_extracted :
  ∀ (w : World) (MOD_FILE_FORMAT : string) (self : ModLoader)
    (fs : OsPath.filesystem) (url : string),
    (∀ fmt name path,
       ArchiveExtract fmt name path ∈ (urlImport w MOD_FILE_FORMAT self fs url).2 →
       endswith name ("." +:+ MOD_FILE_FORMAT) = true
       ∧ path = modsPath self
       ∧ fmt ≠ Unknown
       ∧ ∃ content names, namelist w fmt content = Returned names ∧ name ∈ names)
    ∧ (∀ p, p ≠ OsPath.join (modsPath self) "_mod.archive" →
         (urlImport w MOD_FILE_FORMAT self fs url).1.2 !! p = fs !! p).
Proof.
  intros w ext self fs url. split; [|intros p; apply urlImport_frame].
  intros fmt name path Hin.
  assert (Forall (extract_ok w ext (modsPath self))
            (urlImport w ext self fs url).2) as Hall.
  { unfold urlImport.
    destruct (parse_url url) as [[zipUrl|]|e]; [|by repeat constructor..].
    pose proof (urlImport_try_events w ext self fs zipUrl
                  (OsPath.join (modsPath self) "_mod.archive")) as Htry.
    destruct (urlImport_try _ _ _ _ _ _) as [[r fs1] evs]. simpl in Htry.
    assert (Forall (extract_ok w ext (modsPath self))
              match r with
              | Raised e => evs ++ urlImport_except w e
              | Returned _ => evs
              end) as Hevs.
    { destruct r as [[]|e]; [done|]. apply Forall_app. split; [done|].
      destruct e; by repeat constructor. }
    destruct (OsPath.remove fs1 _); simpl;
      repeat (apply Forall_cons; split; [done|]); exact Hevs. }
  rewrite Forall_forall in Hall. exact (Hall _ Hin).
Qed.

(** When the download left a scratch file, the [finally] clause removes it
    and [urlImport] returns. *)
Lemma urlImport_cleans_written_scratch (w : World) (ext : string)
    (self : ModLoader) (fs : OsPath.filesystem) (url zipUrl : string) :
  parse_url url = Returned (Some zipUrl) →
  (∀ e, urlretrieve w zipUrl ≠ DownloadFailed e None) →
  (urlImport w ext self fs url).1.1 = Returned ()
  ∧ (urlImport w ext self fs url).1.2
      !! OsPath.join (modsPath self) "_mod.archive" = None.
Proof.
  intros Hparse Hdl. unfold urlImport. rewrite Hparse.
  set (archivePath := OsPath.join (modsPath self) "_mod.archive").
  assert (∃ data, (urlImport_try w ext self fs zipUrl archivePath).1.2
                    !! archivePath = Some (OsPath.File data)) as [data Hfile].
  { unfold urlImport_try, retrieve.
    destruct (urlretrieve w zipUrl) as [body|e [part|]]; simpl.
    - exists body. repeat case_match; simpl; by rewrite lookup_insert_eq.
    - exists part. by rewrite lookup_insert_eq.
    - by destruct (Hdl e). }
  destruct (urlImport_try _ _ _ _ _ _) as [[r fs1] evs]. simpl in Hfile.
  unfold OsPath.remove. rewrite Hfile. simpl. by rewrite lookup_delete_eq.
Qed.

(** C6 (what the code does when [urlretrieve] raises before it has created
    the scratch file, and no scratch file was there): the error dialog is
    shown, then [os.remove] in the [finally] clause raises
    [FileNotFoundError], which leaves [urlImport]. *)
Theorem C6_cleanup_raises_when_nothing_was_downloaded :
  ∀ (w : World) (MOD_FILE_FORMAT : string) (self : ModLoader)
    (fs : OsPath.filesystem) (url zipUrl : string) (e : exn),
    parse_url url = Returned (Some zipUrl) →
    urlretrieve w zipUrl = DownloadFailed e None →
    fs !! OsPath.join (modsPath self) "_mod.archive" = None →
    urlImport w MOD_FILE_FORMAT self fs url
      = (Raised FileNotFoundError, fs,
         url_head
         ++ UrlRetrieve zipUrl (OsPath.join (modsPath self) "_mod.archive")
         :: urlImport_except w e).
Proof.
  intros w ext self fs url zipUrl e Hparse Hdl Hnone.
  unfold urlImport, urlImport_try, retrieve. rewrite Hparse, Hdl. simpl.
  unfold OsPath.remove. by rewrite Hnone.
Qed.

End ArchiveFacts.

(** ** [controllerHandler] *)

Section RouterFacts.
Import Py Effects Router.

Variable repr_strs : list string → string.
Variable repr_notification : Notification → string.
Variable addMod : list (string * value) → Mods → Mods.
Variable removeAllMods : Mods → Mods.

#[local] Abbreviation handler :=
  (controllerHandler repr_strs repr_notification addMod removeAllMods).
#[local] Abbreviation run_polls :=
  (run repr_strs repr_notification addMod removeAllMods).
#[local] Abbreviation lines_of := (error_lines repr_strs repr_notification).
#[local] Abbreviation show_errors := (showErrorNotifications repr_strs repr_notification).


Lemma handler_buffers_soft_error (n : Notification) (errs : list Notification)
    (w : Mods) :
  soft_error (notificationType n) = true →
  handler (Some (Notification_ n)) (mkModLoader true errs w)
    = (Returned (), mkModLoader true (errs ++ [n]) w, []).
Proof.
  destruct n as [ty a]. simpl. intros Hsoft.
  destruct ty; try discriminate Hsoft; reflexivity.
Qed.








(** C8. With a controller in place, the handler answers a
    [ModConflictNotFound] notification carrying one argument by resetting
    the progress value and sending one [installMod] for that argument; it
    changes nothing in [ModLoader] and shows no dialog. *)
Theorem C8_conflict_not_found_installs_once :
  ∀ (errs : list Notification) (w : Mods) (modHash : value),
    let self := mkModLoader true errs w in
    let notification := mkNotification ModConflictNotFound [modHash] in
    let evs := (handler (Some (Notification_ notification)) self).2 in
    handler (Some (Notification_ notification)) self
      = (Returned (), self, [ProgressSetValue 0; CtlInstallMod modHash])
    ∧ List.filter is_install evs = [CtlInstallMod modHash]
    ∧ List.filter shows_dialog evs = [].
Proof. intros errs w modHash. by cbn. Qed.



End RouterFacts.
(** ** The properties at work on concrete situations *)

Section Examples.
Import Py Effects.

(** With [a.bmod] present, importing another [a.bmod] writes [a (1).bmod]. *)
Example fileImport_second_a_bmod :
  Imports.fileImport 2 Samples.loader Samples.fs_taken "/home/user/a.bmod"
    = Some (Returned (),
            <["/app/Mods/a (1).bmod" := OsPath.File "new"]> Samples.fs_taken,
            [SetForeground; SetLoadingScreen; CtlReloadMods; CtlGetModsData]).
Proof. vm_compute. reflexivity. Qed.

(** ... and importing it once more writes [a (2).bmod]. *)
Example fileImport_third_a_bmod :
  Imports.fileImport 3 Samples.loader
      (<["/app/Mods/a (1).bmod" := OsPath.File "new"]> Samples.fs_taken)
      "/home/user/a.bmod"
    = Some (Returned (),
            <["/app/Mods/a (2).bmod" := OsPath.File "new"]>
              (<["/app/Mods/a (1).bmod" := OsPath.File "new"]> Samples.fs_taken),
            [SetForeground; SetLoadingScreen; CtlReloadMods; CtlGetModsData]).
Proof. vm_compute. reflexivity. Qed.



(** C3 (what the code does for a file in a directory whose absolute path
    merely begins with the text of the mods directory's path): the file
    [/app/Mods2/a.bmod] is readable and is not inside [/app/Mods], yet
    [fileImport] returns at its first test: nothing is copied and no reload
    is asked for. *)
Theorem C3_fileImport_skips_a_sibling_directory :
  ¬ OsPath.resides_in "/app" "/app/Mods" "/app/Mods2/a.bmod"
  ∧ OsPath.read_file Samples.fs_sibling "/app/Mods2/a.bmod" = Returned "data"
  ∧ Imports.in_mods Samples.loader "/app/Mods2/a.bmod" = true
  ∧ ∀ fuel,
      Imports.fileImport fuel Samples.loader Samples.fs_sibling "/app/Mods2/a.bmod"
        = Some (Returned (), Samples.fs_sibling, [SetForeground]).
Proof.
  split.
  { intros [rest Hrest]. vm_compute in Hrest. discriminate Hrest. }
  split; [reflexivity|]. split; [reflexivity|].
  intros fuel. unfold Imports.fileImport.
  by replace (Imports.in_mods Samples.loader "/app/Mods2/a.bmod") with true.
Qed.

Lemma C6_witness_offline :
  Imports.parse_url "bhmod://skin,123,456"
    = Returned (Some "http://gamebanana.com/dl/456")
  ∧ Samples.fs_empty_mods !! "/app/Mods/_mod.archive" = None
  ∧ Imports.urlImport Samples.offline "bmod" Samples.loader Samples.fs_empty_mods
      "bhmod://skin,123,456"
    = (Raised FileNotFoundError, Samples.fs_empty_mods,
       Imports.url_head
       ++ [UrlRetrieve "http://gamebanana.com/dl/456" "/app/Mods/_mod.archive";
           ShowError "Unpack error:" "Traceback"]).
Proof.
  split; [reflexivity|]. split; [reflexivity|].
  exact (C6_cleanup_raises_when_nothing_was_downloaded
           Samples.offline "bmod" Samples.loader Samples.fs_empty_mods
           "bhmod://skin,123,456" "http://gamebanana.com/dl/456"
           (OtherError "URLError") eq_refl eq_refl eq_refl).
Defined.

Lemma C7_witness_three_fields :
  index (split1 ":" "scheme://tag,123,456") 1 = Returned "//tag,123,456"
  ∧ split "," (strip "/" "//tag,123,456") = ["tag"; "123"; "456"]
  ∧ ∃ r fs' evs,
      Imports.urlImport Samples.zip_world "bmod" Samples.loader
          Samples.fs_empty_mods "scheme://tag,123,456"
        = (r, fs',
           Imports.url_head
           ++ UrlRetrieve "http://gamebanana.com/dl/456" "/app/Mods/_mod.archive"
           :: evs).
Proof.
  split; [reflexivity|]. split; [reflexivity|].
  destruct (C7_urlImport_three_fields_or_nothing Samples.zip_world "bmod"
              Samples.loader Samples.fs_empty_mods "scheme://tag,123,456"
              "//tag,123,456" eq_refl)
    as (_ & _ & _ & _ & _ & _ & Hthree & _).
  destruct (Hthree eq_refl) as (tag & modId & dlId & r & fs' & evs & Hfields & Hrun).
  injection Hfields as <- <- <-. by exists r, fs', evs.
Defined.

(** Two fields: nothing is downloaded and nothing is raised. *)
Example urlImport_two_fields :
  Imports.urlImport Samples.zip_world "bmod" Samples.loader Samples.fs_empty_mods
      "scheme://onlytwo,fields"
    = (Returned (), Samples.fs_empty_mods, [SetForeground]).
Proof. reflexivity. Qed.

(** A zip archive with two mods and a text file: the two mods are
    extracted, the text file is not, and the scratch file is gone. *)
Example urlImport_zip :
  Imports.urlImport Samples.zip_world "bmod" Samples.loader Samples.fs_empty_mods
      "scheme://tag,123,456"
    = (Returned (), Samples.fs_empty_mods,
       Imports.url_head
       ++ [UrlRetrieve "http://gamebanana.com/dl/456" "/app/Mods/_mod.archive";
           ArchiveOpen Zip "/app/Mods/_mod.archive";
           ProgressSetContent "Extract: 'a.bmod'"; ProcessEvents;
           ArchiveExtract Zip "a.bmod" "/app/Mods";
           ProgressSetContent "Extract: 'skins/b.bmod'"; ProcessEvents;
           ArchiveExtract Zip "skins/b.bmod" "/app/Mods";
           SetLoadingScreen; CtlReloadMods; CtlGetModsData; ProgressHide]).
Proof. vm_compute. reflexivity. Qed.

(** A download that is no archive: nothing is opened, nothing is raised. *)
Example urlImport_not_an_archive :
  Imports.urlImport Samples.gif_world "bmod" Samples.loader Samples.fs_empty_mods
      "scheme://tag,123,456"
    = (Returned (), Samples.fs_empty_mods,
       Imports.url_head
       ++ [UrlRetrieve "http://gamebanana.com/dl/456" "/app/Mods/_mod.archive";
           SetLoadingScreen; CtlReloadMods; CtlGetModsData; ProgressHide]).
Proof. vm_compute. reflexivity. Qed.



(** Three soft errors and then [InstallingModFinished]: one dialog with
    three lines, and an empty buffer. *)
Example three_soft_errors_then_finished :
  let '(rs, self, evs) :=
    Router.run Samples.repr_strs Samples.repr_notification
      Samples.addMod Samples.removeAllMods
      ((Router.Notification_ <$> Samples.three_soft_errors)
       ++ [Samples.install_finished])
      (Router.mkModLoader true [] Samples.one_mod) in
  rs = replicate 4 (Returned ())
  ∧ Router.errors self = []
  ∧ evs = [ModsUpdateData; SelectedModButtonUpdateData; ProgressHide;
           ShowError "Errors:"
             ("Mod 'x.bmod' is empty" +:+ Router.nl
              +:+ "<Notification>" +:+ Router.nl
              +:+ "Not found sound 'hit (3)' in 'Sounds.swf'" +:+ Router.nl)].
Proof. vm_compute. done. Qed.

End Examples.

(** ** The import queue while a drain is under way *)

Section ImportQueueDrainFacts.
Import ImportQueueModel.

(** X1. Items pushed while a drain of [iterUrl] / [iterFile] is suspended at
    its [yield] (at least one item was yielded) start no waker thread, and
    the same drain, resumed, yields them after the items that were already
    waiting, in push order; it ends with an empty queue and the flag down. *)
Theorem X1_pushes_during_a_drain_join_it :
  ∀ (first : string) (done todo more other : list string)
    (su sf : option Signal) (bu bf : bool) (extra : nat),
    let k := S (length done) in
    let fuel := S (length (todo ++ more)) + extra in
    let qu := mkImportQueue (first :: done ++ todo) su bu other sf bf in
    let qf := mkImportQueue other su bu (first :: done ++ todo) sf bf in
    (let '(yielded, pc, q1) := takeUrl k GenStart qu in
     let '(q2, wakers) := addUrls more q1 in
     yielded = first :: done
     ∧ wakers = replicate (length more) false
     ∧ drainUrl fuel pc q2
         = Some (todo ++ more, mkImportQueue [] su false other sf bf))
    ∧ (let '(yielded, pc, q1) := takeFile k GenStart qf in
       let '(q2, wakers) := addFiles more q1 in
       yielded = first :: done
       ∧ wakers = replicate (length more) false
       ∧ drainFile fuel pc q2
           = Some (todo ++ more, mkImportQueue other su bu [] sf false)).
Proof.
  intros first done todo more other su sf bu bf extra k fuel qu qf.
  subst k fuel qu qf. split.
  - cbn [takeUrl iterUrl_next set_readUrl urlQueue signalUrl _readUrlQueue
         fileQueue signalFile _readFileQueue].
    rewrite takeUrl_resume, addUrls_spec.
    cbn [urlQueue signalUrl _readUrlQueue fileQueue signalFile _readFileQueue negb].
    split; [done|]. split; [done|]. apply drainUrl_resume. lia.
  - cbn [takeFile iterFile_next set_readFile urlQueue signalUrl _readUrlQueue
         fileQueue signalFile _readFileQueue].
    rewrite takeFile_resume, addFiles_spec.
    cbn [urlQueue signalUrl _readUrlQueue fileQueue signalFile _readFileQueue negb].
    split; [done|]. split; [done|]. apply drainFile_resume. lia.
Qed.

(** X2. A drain that is given up after at least one item (its generator is
    dropped while suspended) leaves the reading flag up: the pushes that
    follow start no waker thread and only lengthen the queue; a later fresh
    drain yields the items that were left and the later pushes, in order,
    and lowers the flag. *)
Theorem X2_abandoned_drain_keeps_the_flag_up :
  ∀ (first : string) (done todo more other : list string)
    (su sf : option Signal) (bu bf : bool) (extra : nat),
    let k := S (length done) in
    let fuel := S (length (todo ++ more)) + extra in
    let qu := mkImportQueue (first :: done ++ todo) su bu other sf bf in
    let qf := mkImportQueue other su bu (first :: done ++ todo) sf bf in
    (let q1 := (takeUrl k GenStart qu).2 in
     let '(q2, wakers) := addUrls more q1 in
     _readUrlQueue q1 = true
     ∧ wakers = replicate (length more) false
     ∧ urlQueue q2 = todo ++ more
     ∧ _readUrlQueue q2 = true
     ∧ drainUrl fuel GenStart q2
         = Some (todo ++ more, mkImportQueue [] su false other sf bf))
    ∧ (let q1 := (takeFile k GenStart qf).2 in
       let '(q2, wakers) := addFiles more q1 in
       _readFileQueue q1 = true
       ∧ wakers = replicate (length more) false
       ∧ fileQueue q2 = todo ++ more
       ∧ _readFileQueue q2 = true
       ∧ drainFile fuel GenStart q2
           = Some (todo ++ more, mkImportQueue other su bu [] sf false)).
Proof.
  intros first done todo more other su sf bu bf extra k fuel qu qf.
  subst k fuel qu qf. split.
  - cbn [takeUrl iterUrl_next set_readUrl urlQueue signalUrl _readUrlQueue
         fileQueue signalFile _readFileQueue].
    rewrite takeUrl_resume, addUrls_spec.
    cbn [urlQueue signalUrl _readUrlQueue fileQueue signalFile _readFileQueue
         negb snd].
    repeat (split; [done|]). apply drainUrl_start. lia.
  - cbn [takeFile iterFile_next set_readFile urlQueue signalUrl _readUrlQueue
         fileQueue signalFile _readFileQueue].
    rewrite takeFile_resume, addFiles_spec.
    cbn [urlQueue signalUrl _readUrlQueue fileQueue signalFile _readFileQueue
         negb snd].
    repeat (split; [done|]). apply drainFile_start. lia.
Qed.

End ImportQueueDrainFacts.

(** ** [queueUrl] and [queueFile] *)

Section SlotsFacts.
Import Py Effects ImportQueueModel Slots.

Lemma queueUrl_S (fuel : nat) (w : World) (ext : string)
    (self : Imports.ModLoader) (pc : gen_pc) (q : ImportQueue)
    (fs : OsPath.filesystem) :
  queueUrl (S fuel) w ext self pc q fs =
    match iterUrl_next pc q with
    | (None, pc', q') => Some (Returned (), pc', q', fs, [])
    | (Some url, pc', q') =>
        match Imports.urlImport w ext self fs url with
        | (Raised e, fs', evs) => Some (Raised e, pc', q', fs', evs)
        | (Returned _, fs', evs) =>
            match queueUrl fuel w ext self pc' q' fs' with
            | Some (r, pc'', q'', fs'', evs') =>
                Some (r, pc'', q'', fs'', evs ++ evs')
            | None => None
            end
        end
    end.
Proof. reflexivity. Qed.

Lemma queueUrl_resume (w : World) (ext : string) (self : Imports.ModLoader)
    (urls : list string) : ∀ fuel su b fq sf bf fs,
  length urls < fuel →
  queueUrl fuel w ext self GenYield (mkImportQueue urls su b fq sf bf) fs
    = Some (let '(r, rest_, fs', evs) := import_urls w ext self fs urls in
            (r, if raised r then GenYield else GenDone,
             mkImportQueue rest_ su (if raised r then b else false) fq sf bf,
             fs', evs)).
Proof.
  induction urls as [|url urls IH]; intros [|fuel] su b fq sf bf fs Hlen;
    simpl in Hlen; try lia; [done|].
  cbn [queueUrl iterUrl_next urlQueue signalUrl _readUrlQueue fileQueue
       signalFile _readFileQueue import_urls].
  destruct (Imports.urlImport w ext self fs url) as [[[[]|e] fs1] evs1]; [|done].
  rewrite IH by lia.
  by destruct (import_urls w ext self fs1 urls) as [[[r rest_] fs2] evs2].
Qed.

(** X3. [queueUrl] imports the queued URLs one after the other, in queue
    order, each on the file system the one before left. If every import
    returns, the queue ends empty with the reading flag down. If one raises,
    the exception leaves [queueUrl], the URLs behind it stay in the queue
    and the flag stays up, so a later [addUrl] starts no waker thread. *)
Theorem X3_queueUrl_runs_the_imports_in_order :
  ∀ (w : World) (MOD_FILE_FORMAT : string) (self : Imports.ModLoader)
    (urls other : list string) (su sf : option Signal) (bu bf : bool)
    (fs : OsPath.filesystem) (extra : nat),
    let '(r, rest_, fs', evs) := import_urls w MOD_FILE_FORMAT self fs urls in
    let q' := mkImportQueue rest_ su (raised r) other sf bf in
    queueUrl (S (length urls) + extra) w MOD_FILE_FORMAT self GenStart
        (mkImportQueue urls su bu other sf bf) fs
      = Some (r, if raised r then GenYield else GenDone, q', fs', evs)
    ∧ (raised r = false → rest_ = [])
    ∧ (∀ url, (addUrl url q').2 = negb (raised r)).
Proof.
  intros w ext self urls other su sf bu bf fs extra.
  destruct (import_urls w ext self fs urls) as [[[r rest_] fs'] evs] eqn:Himp.
  split; [|split; [|done]].
  - destruct urls as [|url urls]; [by simplify_eq/=|].
    change (S (length (url :: urls)) + extra) with (S (S (length urls + extra))).
    rewrite queueUrl_S.
    cbn [iterUrl_next set_readUrl urlQueue signalUrl _readUrlQueue
         fileQueue signalFile _readFileQueue].
    cbn [import_urls] in Himp.
    destruct (Imports.urlImport w ext self fs url) as [[[[]|e] fs1] evs1];
      [|by simplify_eq].
    rewrite queueUrl_resume by lia.
    destruct (import_urls w ext self fs1 urls) as [[[r2 rest2] fs2] evs2].
    simplify_eq. by destruct r.
  - clear extra bu. revert fs r rest_ fs' evs Himp.
    induction urls as [|url urls IH]; intros fs r rest_ fs' evs Himp Hr;
      cbn [import_urls] in Himp; [by simplify_eq|].
    destruct (Imports.urlImport w ext self fs url) as [[[[]|e] fs1] evs1];
      [|by simplify_eq].
    destruct (import_urls w ext self fs1 urls) as [[[r2 rest2] fs2] evs2] eqn:H2.
    simplify_eq. by eapply IH.
Qed.

End SlotsFacts.

(** ** More on [fileImport] *)

Section FileImportMoreFacts.
Import Py OsPath Effects Imports.

Lemma free_index_more_fuel (fs : filesystem) (dir : string)
    (sp : string * string) (fuel : nat) : ∀ i n k,
  free_index fuel fs dir sp i = Some n →
  free_index (fuel + k) fs dir sp i = Some n.
Proof.
  induction fuel as [|fuel IH]; intros i n k; [done|]. simpl.
  destruct (exists_ fs (join dir (numbered sp i))); [apply IH | done].
Qed.

Lemma fileImport_more_fuel (fuel fuel' : nat) (self : ModLoader)
    (fs : filesystem) (filePath : string) res :
  fileImport fuel self fs filePath = Some res → fuel ≤ fuel' →
  fileImport fuel' self fs filePath = Some res.
Proof.
  intros Hres Hle. replace fuel' with (fuel + (fuel' - fuel)) by lia.
  revert Hres. unfold fileImport, destination.
  destruct (in_mods self filePath); [done|].
  destruct (exists_ fs (join (modsPath self) (split filePath).2)); [|done].
  destruct (free_index fuel fs _ _ 1) as [n|] eqn:Hn; [|done].
  by rewrite (free_index_more_fuel _ _ _ _ _ _ _ Hn).
Qed.

(** The name [fileImport] chooses exists for every file system, and the
    path it stands for is free. *)
Lemma destination_free (self : ModLoader) (fs : filesystem)
    (filePath : string) (extra : nat) :
  ∃ fileName,
    destination (S (size fs) + extra) self fs filePath = Some fileName
    ∧ fs !! join (modsPath self) fileName = None
    ∧ (exists_ fs (join (modsPath self) (split filePath).2) = false →
       fileName = (split filePath).2)
    ∧ dirname (join (modsPath self) fileName)
      = dirname (join (modsPath self) (split filePath).2).
Proof.
  unfold destination.
  destruct (exists_ fs (join (modsPath self) (split filePath).2)) eqn:Htaken.
  - set (sp := splitext (split filePath).2).
    destruct (free_slot fs (λ k, join (modsPath self) (numbered sp k)))
      as (m & Hm & Hmfree); [apply tried_path_inj|].
    destruct (least_free fs (λ k, join (modsPath self) (numbered sp k)) (m - 1) 1)
      as (n & Hn & Hnfree & Hbelow).
    { by replace (1 + (m - 1)) with m by lia. }
    exists (numbered sp n).
    rewrite (free_index_least fs _ sp n); [|lia|lia|done|done]. simpl.
    split; [done|]. split; [done|]. split; [done|].
    rewrite dirname_join by apply numbered_no_slash.
    by rewrite (dirname_join _ (split filePath).2)
      by apply split_tail_no_slash.
  - exists (split filePath).2. split; [done|]. split; [|done].
    apply bool_decide_eq_false in Htaken. by apply eq_None_not_Some.
Qed.

(** What [fileImport] does with a path that passes its first test. *)
Lemma fileImport_outside (self : ModLoader) (fs : filesystem)
    (filePath : string) (extra : nat) :
  in_mods self filePath = false →
  ∃ fileName,
    fs !! join (modsPath self) fileName = None
    ∧ (exists_ fs (join (modsPath self) (split filePath).2) = false →
       fileName = (split filePath).2)
    ∧ dirname (join (modsPath self) fileName)
      = dirname (join (modsPath self) (split filePath).2)
    ∧ fileImport (S (size fs) + extra) self fs filePath
      = Some match read_file fs filePath with
             | Raised e => (Raised e, fs, [SetForeground])
             | Returned data =>
                 match write_file fs (join (modsPath self) fileName) data with
                 | Raised e => (Raised e, fs, [SetForeground])
                 | Returned fs' =>
                     ((reloadMods self).1, fs',
                      SetForeground :: (reloadMods self).2)
                 end
             end.
Proof.
  intros Hout.
  destruct (destination_free self fs filePath extra)
    as (name & Hdst & Hfree & Hbase & Hdir).
  exists name. split; [done|]. split; [done|]. split; [done|].
  unfold fileImport. rewrite Hout, Hdst. simpl.
  destruct (read_file fs filePath) as [data|e]; [|done].
  destruct (write_file fs (join (modsPath self) name) data); [|done].
  by destruct (reloadMods self).
Qed.





End FileImportMoreFacts.

Section QueueFileFacts.
Import Py Effects ImportQueueModel Slots.

Lemma fileImport_total (self : Imports.ModLoader) (fs : OsPath.filesystem)
    (filePath : string) (fuel : nat) :
  S (size fs) ≤ fuel →
  ∃ r fs' evs, Imports.fileImport fuel self fs filePath = Some (r, fs', evs)
               ∧ size fs' ≤ S (size fs).
Proof.
  intros Hfuel. replace fuel with (S (size fs) + (fuel - S (size fs))) by lia.
  destruct (Imports.in_mods self filePath) eqn:Hin.
  - exists (Returned ()), fs, [SetForeground]. unfold Imports.fileImport.
    rewrite Hin. split; [done|lia].
  - destruct (fileImport_outside self fs filePath (fuel - S (size fs)) Hin)
      as (name & Hfree & _ & _ & ->).
    destruct (OsPath.read_file fs filePath) as [data|e];
      [|eexists _, _, _; split; [done|lia]].
    destruct (OsPath.write_file fs _ data) as [fs'|e] eqn:Hwrite;
      [|eexists _, _, _; split; [done|lia]].
    apply write_file_Returned in Hwrite as ->.
    eexists _, _, _. split; [done|]. by rewrite map_size_insert_None.
Qed.

Lemma import_files_total (self : Imports.ModLoader) (files : list string) :
  ∀ fs fuel, S (size fs + length files) ≤ fuel →
  ∃ r rest fs' evs, import_files fuel self fs files = Some (r, rest, fs', evs).
Proof.
  induction files as [|file files IH]; intros fs fuel Hfuel;
    [by eexists _, _, _, _|].
  simpl in Hfuel.
  destruct (fileImport_total self fs file fuel) as (r & fs1 & evs1 & Himp & Hsize);
    [lia|].
  cbn [import_files]. rewrite Himp. destruct r as [[]|e]; [|by eexists _, _, _, _].
  destruct (IH fs1 fuel) as (r2 & rest2 & fs2 & evs2 & Hrest); [lia|].
  rewrite Hrest. by eexists _, _, _, _.
Qed.

Lemma queueFile_S (fuel : nat) (self : Imports.ModLoader) (pc : gen_pc)
    (q : ImportQueue) (fs : OsPath.filesystem) :
  queueFile (S fuel) self pc q fs =
    match iterFile_next pc q with
    | (None, pc', q') => Some (Returned (), pc', q', fs, [])
    | (Some file, pc', q') =>
        match Imports.fileImport fuel self fs file with
        | None => None
        | Some (Raised e, fs', evs) => Some (Raised e, pc', q', fs', evs)
        | Some (Returned _, fs', evs) =>
            match queueFile fuel self pc' q' fs' with
            | Some (r, pc'', q'', fs'', evs') =>
                Some (r, pc'', q'', fs'', evs ++ evs')
            | None => None
            end
        end
    end.
Proof. reflexivity. Qed.

Lemma queueFile_resume (self : Imports.ModLoader) (fuel0 : nat)
    (files : list string) : ∀ fuel uq su bu sf b fs r rest fs' evs,
  import_files fuel0 self fs files = Some (r, rest, fs', evs) →
  fuel0 + length files < fuel →
  queueFile fuel self GenYield (mkImportQueue uq su bu files sf b) fs
    = Some (r, if raised r then GenYield else GenDone,
            mkImportQueue uq su bu rest sf (if raised r then b else false),
            fs', evs).
Proof.
  induction files as [|file files IH];
    intros [|fuel] uq su bu sf b fs r rest fs' evs Himp Hlen;
    simpl in Hlen; try lia; [by simplify_eq/=|].
  rewrite queueFile_S.
  cbn [iterFile_next urlQueue signalUrl _readUrlQueue fileQueue
       signalFile _readFileQueue].
  cbn [import_files] in Himp.
  destruct (Imports.fileImport fuel0 self fs file) as [[[r1 fs1] evs1]|] eqn:H1;
    [|done].
  rewrite (fileImport_more_fuel fuel0 fuel _ _ _ _ H1) by lia.
  destruct r1 as [[]|e]; [|by simplify_eq].
  destruct (import_files fuel0 self fs1 files) as [[[[r2 rest2] fs2] evs2]|] eqn:H2;
    [|done].
  rewrite (IH fuel uq su bu sf b fs1 r2 rest2 fs2 evs2 H2) by lia.
  by simplify_eq.
Qed.

(** X8. [queueFile] imports the queued files one after the other, in queue
    order, each on the file system the one before left; the loops end
    whatever the files are. If every import returns, the queue ends empty
    with the reading flag down. If one raises, the exception leaves
    [queueFile], the files behind it stay in the queue and the flag stays
    up, so a later [addFile] starts no waker thread. *)
Theorem X8_queueFile_runs_the_imports_in_order :
  ∀ (self : Imports.ModLoader) (files other : list string)
    (su sf : option Signal) (bu bf : bool) (fs : OsPath.filesystem)
    (extra : nat),
    let fuel0 := S (size fs + length files) in
    ∃ r rest fs' evs,
      let q' := mkImportQueue other su bu rest sf (raised r) in
      import_files fuel0 self fs files = Some (r, rest, fs', evs)
      ∧ queueFile (S (S (fuel0 + length files)) + extra) self GenStart
          (mkImportQueue other su bu files sf bf) fs
        = Some (r, if raised r then GenYield else GenDone, q', fs', evs)
      ∧ (raised r = false → rest = [])
      ∧ (∀ file, (addFile file q').2 = negb (raised r)).
Proof.
  intros self files other su sf bu bf fs extra fuel0.
  destruct (import_files_total self files fs fuel0) as (r & rest & fs' & evs & Himp);
    [done|].
  exists r, rest, fs', evs. cbn zeta. split; [done|]. split; [|split; [|done]].
  - destruct files as [|file files]; [by simplify_eq/=|].
    change (S (S (fuel0 + length (file :: files))) + extra)
      with (S (S (fuel0 + length (file :: files)) + extra)).
    rewrite queueFile_S.
    cbn [iterFile_next set_readFile urlQueue signalUrl _readUrlQueue fileQueue
         signalFile _readFileQueue].
    cbn [import_files] in Himp.
    destruct (Imports.fileImport fuel0 self fs file) as [[[r1 fs1] evs1]|] eqn:H1;
      [|done].
    rewrite (fileImport_more_fuel fuel0 _ _ _ _ _ H1) by lia.
    destruct r1 as [[]|e]; [|by simplify_eq].
    destruct (import_files fuel0 self fs1 files) as [[[[r2 rest2] fs2] evs2]|] eqn:H2;
      [|done].
    rewrite (queueFile_resume self fuel0 files _ other su bu sf true fs1
               r2 rest2 fs2 evs2 H2) by (simpl; lia).
    simplify_eq. by destruct r.
  - clear extra bf. clearbody fuel0. revert fs r rest fs' evs Himp.
    induction files as [|file files IH]; intros fs r rest fs' evs Himp Hr;
      cbn [import_files] in Himp; [by simplify_eq|].
    destruct (Imports.fileImport fuel0 self fs file) as [[[r1 fs1] evs1]|];
      [|done].
    destruct r1 as [[]|e]; [|by simplify_eq].
    destruct (import_files fuel0 self fs1 files) as [[[[r2 rest2] fs2] evs2]|] eqn:H2;
      [|done].
    simplify_eq. by eapply IH.
Qed.

End QueueFileFacts.

(** ** More on [urlImport] *)

Section UrlImportMoreFacts.
Import Py Effects Imports Traces.

Lemma split1_at_first (c : ascii) (a b : string) :
  contains c a = false → split1 c (a +:+ String c b) = [a; b].
Proof.
  induction a as [|d a IH]; simpl.
  - intros _. rewrite ?app_nil_l_str. simpl. by case_decide.
  - case_decide as Hd; [done|]. intros Ha. by rewrite (IH Ha).
Qed.

Lemma lstrip_all_char (c : ascii) (a s : string) :
  all_char c a = true → lstrip c (a +:+ s) = lstrip c s.
Proof.
  induction a as [|d a IH]; simpl; [done|].
  case_decide as Hd; [|done]. intros Ha. by apply IH.
Qed.

Lemma lstrip_id (c : ascii) (s : string) :
  startswith s (String c "") = false → lstrip c s = s.
Proof.
  destruct s as [|d s]; simpl; [done|]. repeat case_decide; congruence.
Qed.

Lemma rstrip_all_char_nil (c : ascii) (b : string) :
  all_char c b = true → rstrip c b = "".
Proof.
  induction b as [|d b IH]; simpl; [done|].
  case_decide as Hd; [|done]. intros Hb. by rewrite (IH Hb).
Qed.

Lemma rstrip_cons (c d : ascii) (s : string) :
  rstrip c (String d s) =
    match rstrip c s with
    | "" => if decide (d = c) then "" else String d ""
    | r => String d r
    end.
Proof. reflexivity. Qed.

(** A stripped text that ends with another character keeps what is put in
    front of it. *)
Lemma rstrip_app_keep (c : ascii) (x y : string) :
  rstrip c y = y → y ≠ "" → rstrip c (x +:+ y) = x +:+ y.
Proof.
  intros Hy Hne. induction x as [|d x IH]; [done|].
  rewrite app_cons_str, rstrip_cons, IH.
  destruct (x +:+ y) eqn:Hxy; [|done].
  destruct x; [by rewrite app_nil_l_str in Hxy | by rewrite app_cons_str in Hxy].
Qed.

Lemma rstrip_drop (c : ascii) (y b : string) :
  rstrip c y = y → y ≠ "" → all_char c b = true → rstrip c (y +:+ b) = y.
Proof.
  intros Hy Hne Hb. revert Hy Hne. induction y as [|d y IH]; [done|].
  intros Hy _. rewrite app_cons_str, rstrip_cons. rewrite rstrip_cons in Hy.
  destruct y as [|e y].
  - by rewrite app_nil_l_str, (rstrip_all_char_nil _ _ Hb).
  - destruct (rstrip c (String e y)) as [|e' r'] eqn:Hr.
    + case_decide; simplify_eq.
    + simplify_eq. by rewrite IH.
Qed.

(** X9. A link of the form [scheme:] + slashes + [tag,modId,dlId] +
    slashes, with a colon-free scheme, comma-free fields, a tag that does not
    start with a slash and a download id that does not end with one, is
    parsed to the download address [http://gamebanana.com/dl/] + [dlId],
    however many slashes surround the fields. *)
Theorem X9_parse_url_of_a_well_formed_link :
  ∀ (scheme lead trail tag modId dlId : string),
    contains ":" scheme = false →
    all_char "/" lead = true → all_char "/" trail = true →
    contains "," tag = false → contains "," modId = false →
    contains "," dlId = false →
    startswith tag "/" = false → rstrip "/" dlId = dlId →
    parse_url (scheme +:+ ":" +:+ lead +:+ tag +:+ "," +:+ modId +:+ ","
               +:+ dlId +:+ trail)
      = Returned (Some ("http://gamebanana.com/dl/" +:+ dlId)).
Proof.
  intros scheme lead trail tag modId dlId Hs Hl Ht Htag Hmod Hdl Hstart Hend.
  set (x := tag +:+ String "," modId). set (y := String "," dlId).
  assert (rstrip "/" y = y) as Hy.
  { subst y. rewrite rstrip_cons, Hend. destruct dlId; [by case_decide|done]. }
  assert (rstrip "/" (x +:+ y) = x +:+ y) as Hxy by (by apply rstrip_app_keep).
  assert (x +:+ y ≠ "") as Hne by (subst x; by destruct tag).
  assert (x +:+ y = tag +:+ String "," (modId +:+ String "," dlId)) as Hdata.
  { subst x y. by rewrite !app_assoc_str, !app_cons_str. }
  replace (scheme +:+ ":" +:+ lead +:+ tag +:+ "," +:+ modId +:+ ","
           +:+ dlId +:+ trail)
    with (scheme +:+ String ":" (lead +:+ (x +:+ y) +:+ trail)).
  2:{ subst x y. by rewrite !app_assoc_str, !app_cons_str. }
  unfold parse_url. rewrite (split1_at_first ":" scheme) by done.
  cbn [index lookup list_lookup].
  assert (strip "/" (lead +:+ (x +:+ y) +:+ trail) = x +:+ y) as ->.
  { unfold strip. rewrite lstrip_all_char by done. rewrite lstrip_id.
    - by apply rstrip_drop.
    - rewrite Hdata, app_assoc_str.
      destruct tag as [|d tag]; [done|]. rewrite app_cons_str.
      simpl in *. by repeat case_decide. }
  by rewrite Hdata, !split_at_sep, split_without by done.
Qed.

End UrlImportMoreFacts.

Section UrlImportRunFacts.
Import Py Effects Imports Traces.

Lemma extract_loop_returns (w : World) (ext : string) (fmt : ArchiveFormat)
    (modsPath : string) (names : list string) :
  Forall (extracts w ext fmt modsPath) names →
  extract_loop w ext fmt modsPath names
    = (Returned (), extract_steps ext fmt modsPath names).
Proof.
  unfold extract_steps.
  induction names as [|file names IH]; intros Hall; [done|].
  inversion Hall as [|? ? Hfile Hrest]; subst. simpl.
  destruct (endswith file ("." +:+ ext)) eqn:Hend; [|by apply IH].
  rewrite (Hfile Hend), (IH Hrest). done.
Qed.

Lemma extract_loop_raises (w : World) (ext : string) (fmt : ArchiveFormat)
    (modsPath : string) (before : list string) (bad : string)
    (after : list string) (e : exn) :
  Forall (extracts w ext fmt modsPath) before →
  endswith bad ("." +:+ ext) = true →
  extract w fmt bad modsPath = Raised e →
  extract_loop w ext fmt modsPath (before ++ bad :: after)
    = (Raised e,
       extract_steps ext fmt modsPath before ++ extract_step fmt modsPath bad).
Proof.
  unfold extract_steps. intros Hall Hend Hbad.
  induction before as [|file names IH]; simpl.
  - by rewrite Hend, Hbad.
  - inversion Hall as [|? ? Hfile Hrest]; subst.
    destruct (endswith file ("." +:+ ext)) eqn:Hf; [|by apply IH].
    rewrite (Hfile Hf), (IH Hrest). done.
Qed.

Lemma extract_archive_returns (w : World) (ext : string) (fmt : ArchiveFormat)
    (archivePath body modsPath : string) (names : list string) :
  fmt ≠ Unknown →
  namelist w fmt body = Returned names →
  Forall (extracts w ext fmt modsPath) names →
  extract_archive w ext fmt archivePath body modsPath
    = (Returned (),
       ArchiveOpen fmt archivePath :: extract_steps ext fmt modsPath names).
Proof.
  intros Hfmt Hnames Hall. unfold extract_archive.
  rewrite Hnames, (extract_loop_returns _ _ _ _ _ Hall). by destruct fmt.
Qed.

Lemma extract_archive_raises (w : World) (ext : string) (fmt : ArchiveFormat)
    (archivePath body modsPath : string) (before : list string) (bad : string)
    (after : list string) (e : exn) :
  fmt ≠ Unknown →
  namelist w fmt body = Returned (before ++ bad :: after) →
  Forall (extracts w ext fmt modsPath) before →
  endswith bad ("." +:+ ext) = true →
  extract w fmt bad modsPath = Raised e →
  extract_archive w ext fmt archivePath body modsPath
    = (Raised e,
       ArchiveOpen fmt archivePath
       :: extract_steps ext fmt modsPath before
       ++ extract_step fmt modsPath bad).
Proof.
  intros Hfmt Hnames Hall Hend Hbad. unfold extract_archive.
  rewrite Hnames, (extract_loop_raises _ _ _ _ _ _ _ _ Hall Hend Hbad).
  by destruct fmt.
Qed.

(** X10. A run in which the download succeeds, the first bytes select a
    container, the listing is given and every mod entry extracts, with a
    controller in place: [urlImport] opens the container, extracts exactly
    the entries that end with the mod extension, in the order of the
    listing, then reloads the mods once, hides the progress dialog, removes
    the scratch file and returns; no error dialog is shown. What the
    archive library writes is recorded as its [extract] calls; every other
    file is left as it was when there was no scratch file before. *)
Theorem X10_urlImport_successful_run :
  ∀ (w : World) (MOD_FILE_FORMAT : string) (self : ModLoader)
    (fs : OsPath.filesystem) (url zipUrl body : string) (names : list string),
    let archivePath := OsPath.join (modsPath self) "_mod.archive" in
    let fmt := classify (read3 body) in
    parse_url url = Returned (Some zipUrl) →
    urlretrieve w zipUrl = Downloaded body →
    fmt ≠ Unknown →
    namelist w fmt body = Returned names →
    Forall (extracts w MOD_FILE_FORMAT fmt (modsPath self)) names →
    controller self = true →
    urlImport w MOD_FILE_FORMAT self fs url
      = (Returned (),
         delete archivePath (<[archivePath := OsPath.File body]> fs),
         url_head
         ++ [UrlRetrieve zipUrl archivePath; ArchiveOpen fmt archivePath]
         ++ extract_steps MOD_FILE_FORMAT fmt (modsPath self) names
         ++ [SetLoadingScreen; CtlReloadMods; CtlGetModsData; ProgressHide])
    ∧ (fs !! archivePath = None →
       delete archivePath (<[archivePath := OsPath.File body]> fs) = fs).
Proof.
  intros w ext self fs url zipUrl body names archivePath fmt
    Hparse Hdl Hfmt Hnames Hall Hctl.
  split; [|intros Hnone; by rewrite delete_insert_eq, delete_id].
  unfold urlImport, urlImport_try, retrieve, reloadMods.
  rewrite Hparse, Hdl, Hctl. fold archivePath. unfold OsPath.read_file.
  rewrite lookup_insert_eq. fold fmt.
  rewrite (extract_archive_returns _ _ _ _ _ _ _ Hfmt Hnames Hall).
  unfold OsPath.remove. by rewrite lookup_insert_eq.
Qed.

(** X11. A run in which the download and the listing succeed and the
    extraction of one mod entry raises: the mod entries listed before it
    have been extracted and stay so, no entry after it is extracted, and
    the [reloadMods()] and [progressDialog.hide()] calls that end the [try]
    block are not made. The call that follows the failed extraction is
    [showError], once (with the fixed text about [unrar.exe] for
    [RarCannotExec], with the traceback otherwise); what [showError] itself
    does to the dialogs is inside that one call. The scratch file is
    removed and [urlImport] returns. *)
Theorem X11_urlImport_extraction_failure :
  ∀ (w : World) (MOD_FILE_FORMAT : string) (self : ModLoader)
    (fs : OsPath.filesystem) (url zipUrl body bad : string)
    (before after : list string) (e : exn),
    let archivePath := OsPath.join (modsPath self) "_mod.archive" in
    let fmt := classify (read3 body) in
    parse_url url = Returned (Some zipUrl) →
    urlretrieve w zipUrl = Downloaded body →
    fmt ≠ Unknown →
    namelist w fmt body = Returned (before ++ bad :: after) →
    Forall (extracts w MOD_FILE_FORMAT fmt (modsPath self)) before →
    endswith bad ("." +:+ MOD_FILE_FORMAT) = true →
    extract w fmt bad (modsPath self) = Raised e →
    urlImport w MOD_FILE_FORMAT self fs url
      = (Returned (),
         delete archivePath (<[archivePath := OsPath.File body]> fs),
         url_head
         ++ [UrlRetrieve zipUrl archivePath; ArchiveOpen fmt archivePath]
         ++ extract_steps MOD_FILE_FORMAT fmt (modsPath self) before
         ++ extract_step fmt (modsPath self) bad
         ++ [ShowError "Unpack error:"
               match e with
               | RarCannotExec => "WinRar 'unrar.exe' not found"
               | _ => format_exception w e
               end]).
Proof.
  intros w ext self fs url zipUrl body bad before after e archivePath fmt
    Hparse Hdl Hfmt Hnames Hall Hend Hbad.
  unfold urlImport, urlImport_try, retrieve.
  rewrite Hparse, Hdl. fold archivePath. unfold OsPath.read_file.
  rewrite lookup_insert_eq. fold fmt.
  rewrite (extract_archive_raises _ _ _ _ _ _ _ _ _ _ Hfmt Hnames Hall Hend Hbad).
  unfold OsPath.remove. rewrite lookup_insert_eq. cbn [app].
  rewrite <- ?app_assoc. by destruct e.
Qed.

(** X12. Whenever the scratch file is there when the [finally] clause
    runs, because [urlretrieve] wrote it (wholly or in part) or because a
    regular file was left at the scratch path before, [urlImport] returns
    without raising and the scratch path is free afterwards, whatever
    happened in between. *)
Theorem X12_urlImport_removes_an_existing_scratch_file :
  ∀ (w : World) (MOD_FILE_FORMAT : string) (self : ModLoader)
    (fs : OsPath.filesystem) (url zipUrl : string),
    let archivePath := OsPath.join (modsPath self) "_mod.archive" in
    parse_url url = Returned (Some zipUrl) →
    (∀ e, urlretrieve w zipUrl ≠ DownloadFailed e None)
    ∨ (∃ old, fs !! archivePath = Some (OsPath.File old)) →
    (urlImport w MOD_FILE_FORMAT self fs url).1.1 = Returned ()
    ∧ (urlImport w MOD_FILE_FORMAT self fs url).1.2 !! archivePath = None.
Proof.
  intros w ext self fs url zipUrl archivePath Hparse Hthere.
  unfold urlImport. rewrite Hparse. fold archivePath.
  assert (∃ data, (urlImport_try w ext self fs zipUrl archivePath).1.2
                    !! archivePath = Some (OsPath.File data)) as [data Hfile].
  { unfold urlImport_try, retrieve.
    destruct (urlretrieve w zipUrl) as [body|e [part|]] eqn:Hdl; simpl.
    - exists body. repeat case_match; simpl; by rewrite lookup_insert_eq.
    - exists part. by rewrite lookup_insert_eq.
    - destruct Hthere as [Hdl'|[old Hold]]; [by destruct (Hdl' e)|].
      by exists old. }
  destruct (urlImport_try _ _ _ _ _ _) as [[r fs1] evs]. simpl in Hfile.
  unfold OsPath.remove. rewrite Hfile. simpl. by rewrite lookup_delete_eq.
Qed.

End UrlImportRunFacts.

(** ** What [controllerHandler] does and never does, for every input *)

Section RouterMoreFacts.
Import Py Effects Router RouterLaws.

Variable repr_strs : list string → string.
Variable repr_notification : Notification → string.
Variable addMod : list (string * value) → Mods → Mods.
Variable removeAllMods : Mods → Mods.

#[local] Abbreviation handler :=
  (controllerHandler repr_strs repr_notification addMod removeAllMods).
#[local] Abbreviation handle :=
  (handleNotification repr_strs repr_notification).
#[local] Abbreviation show_errors :=
  (showErrorNotifications repr_strs repr_notification).

Lemma bind_quiet {A B} (P : event → Prop) (m : M A) (f : A → M B) :
  quiet P m → (∀ a, quiet P (f a)) → quiet P (m ≫= f).
Proof.
  intros Hm Hf self. unfold mbind, M_bind, bind. specialize (Hm self).
  destruct (m self) as [[[a|e] s1] e1]; simpl in *; [|done].
  specialize (Hf a s1). destruct (f a s1) as [[r s2] e2]. simpl in *.
  by apply Forall_app.
Qed.

Lemma bind_keeps {A B} (R : ModLoader → ModLoader → Prop) `{!Transitive R}
    (m : M A) (f : A → M B) :
  keeps R m → (∀ a, keeps R (f a)) → keeps R (m ≫= f).
Proof.
  intros Hm Hf self. unfold mbind, M_bind, bind. specialize (Hm self).
  destruct (m self) as [[[a|e] s1] e1]; simpl in *; [|done].
  specialize (Hf a s1). destruct (f a s1) as [[r s2] e2]. simpl in *.
  by etrans.
Qed.

Lemma silent_quiet {A} (P : event → Prop) (m : M A) :
  (∀ self, (m self).2 = []) → quiet P m.
Proof. intros Hm self. rewrite Hm. constructor. Qed.

Lemma still_keeps {A} (R : ModLoader → ModLoader → Prop) `{!Reflexive R}
    (m : M A) :
  (∀ self, (m self).1.2 = self) → keeps R m.
Proof. intros Hm self. by rewrite Hm. Qed.

Lemma call_quiet (P : event → Prop) (e : event) : P e → quiet P (call e).
Proof. intros He self. by repeat constructor. Qed.

Lemma calls_quiet (P : event → Prop) (evs : list event) :
  Forall P evs → quiet P (calls evs).
Proof. by intros He self. Qed.

Lemma on_mods_quiet (P : event → Prop) (f : Mods → Mods) (e : event) :
  P e → quiet P (on_mods f e).
Proof. intros He self. by repeat constructor. Qed.

Lemma selected_quiet (P : event → Prop) :
  P SelectedModButtonUpdateData → quiet P selectedModButton_updateData.
Proof.
  intros He self. unfold selectedModButton_updateData.
  destruct (selectedModButton (modsWidget self)); by repeat constructor.
Qed.

Lemma addMods_quiet (P : event → Prop) (modsData : list (gmap string value)) :
  P ModsAddMod → quiet P (addMods addMod modsData).
Proof.
  intros He. induction modsData as [|modData rest IH]; simpl.
  - by apply silent_quiet.
  - apply bind_quiet; [by apply on_mods_quiet | by intros _].
Qed.

Lemma show_errors_quiet (P : event → Prop) :
  (∀ content, P (ShowError "Errors:" content)) → quiet P show_errors.
Proof.
  intros He self. unfold showErrorNotifications.
  cbv [mbind M_bind bind get_self put_self lift call ret].
  case_bool_decide; [|constructor].
  destruct (error_lines _ _ _) as [lines|e]; [|constructor].
  case_bool_decide; by repeat constructor.
Qed.

Lemma conflict_content_prints (P : event → Prop) (reg : gmap string ModClass)
    (hashes : list string) : ∀ content,
  (∀ text, P (Print text)) → Forall P (conflict_content reg content hashes).2.
Proof.
  induction hashes as [|h hashes IH]; intros content HP; [constructor|].
  simpl. destruct (reg !! h); [by apply IH|].
  specialize (IH (content +:+ nl +:+ "- UNKNOWN MOD: " +:+ h) HP).
  destruct (conflict_content reg _ hashes). by constructor.
Qed.

(** Proves that the calls of a handler step satisfy a predicate that holds
    by computation for the calls the step names. *)
Ltac quiet_tac :=
  repeat first
    [ apply show_errors_quiet; intros ?; first [exact I | reflexivity]
    | apply addMods_quiet; first [exact I | reflexivity]
    | apply bind_quiet; [|intros ?]
    | apply call_quiet; first [exact I | reflexivity]
    | apply on_mods_quiet; first [exact I | reflexivity]
    | apply selected_quiet; first [exact I | reflexivity]
    | apply calls_quiet; assumption
    | apply silent_quiet; intros ?;
        cbv [ret lift get_self put_self mods_getitem set_installed mret M_ret];
        repeat case_match; reflexivity
    | match goal with
      | |- quiet ?P (match conflict_content ?reg ?c ?hs with (_, _) => _ end) =>
          let H := fresh in
          assert (Forall P (conflict_content reg c hs).2) as H
            by (apply conflict_content_prints; intros ?;
                first [exact I | reflexivity]);
          destruct (conflict_content reg c hs); simpl in H
      | |- quiet _ (if ?b then _ else _) => destruct b
      | |- quiet _ (match ?p with (_, _) => _ end) => destruct p
      end ].

Lemma handle_quiet_install (notification : Notification) :
  notificationType notification ≠ ModConflictNotFound →
  quiet no_install (handle notification).
Proof.
  destruct notification as [ty a]. cbn [notificationType]. intros Hty.
  unfold handleNotification, progress_step, no_install.
  destruct ty; try done; cbn [notificationType args soft_error]; quiet_tac.
Qed.

Lemma handler_quiet (P : event → Prop) (data : Data) :
  (∀ notification, data = Notification_ notification →
     quiet P (handle notification)) →
  (∀ modsData, data = GetModsData modsData → quiet P show_errors) →
  P ModsRemoveAllMods → P ModsAddMod → P SetModsScreen →
  (∀ text, P (ProgressSetTitle text)) → (∀ text, P (ProgressSetContent text)) →
  P ProgressShow → (∀ text, P (LoadingSetText text)) → (∀ text, P (Print text)) →
  quiet P (handler (Some data)).
Proof.
  intros Hn Hshow ? ? ? ? ? ? ? ?. unfold controllerHandler, started.
  apply bind_quiet; [by apply silent_quiet|]. intros self.
  destruct (negb (controller self)); [by apply silent_quiet|].
  destruct data; try (by apply Hn);
    repeat first
      [ by eapply Hshow
      | by apply addMods_quiet
      | apply bind_quiet; [|intros ?]
      | by apply call_quiet
      | by apply on_mods_quiet
      | apply silent_quiet; intros ?;
          cbv [ret lift get_self put_self mods_getitem mret M_ret];
          repeat case_match; reflexivity
      | match goal with
        | |- quiet _ (if ?b then _ else _) => destruct b
        end ].
Qed.

Lemma handle_quiet_errors_dialog (notification : Notification) :
  quiet only_errors_dialog (handle notification).
Proof.
  destruct notification as [ty a].
  unfold handleNotification, progress_step.
  destruct ty; cbn [notificationType args soft_error]; quiet_tac.
Qed.

Lemma handle_quiet_no_dialog (notification : Notification) :
  flushes (Notification_ notification) = false →
  quiet no_error_dialog (handle notification).
Proof.
  destruct notification as [ty a]. cbn [flushes notificationType].
  unfold handleNotification, progress_step.
  destruct ty; try done; intros _; cbn [notificationType args soft_error];
    quiet_tac.
Qed.

(** X13. For every state and every piece of data: the handler sends
    [installMod] to the engine only when the data is a [ModConflictNotFound]
    notification with one argument, and then with that argument; and it
    opens the error dialog only at an install-finished, uninstall-finished
    or mods-data event, and then with the title [Errors:]. *)
Theorem X13_handler_installs_and_reports_only_where_meant :
  ∀ (data : Data) (self : ModLoader),
    let evs := (handler (Some data) self).2 in
    (∀ modHash, CtlInstallMod modHash ∈ evs →
       controller self = true
       ∧ data = Notification_ (mkNotification ModConflictNotFound [modHash]))
    ∧ (∀ title content, ShowError title content ∈ evs →
         flushes data = true ∧ title = "Errors:").
Proof.
  intros data self evs. subst evs. split.
  - intros modHash Hin.
    assert ((∃ a, data = Notification_ (mkNotification ModConflictNotFound a))
            ∨ ¬ ∃ a, data = Notification_ (mkNotification ModConflictNotFound a))
      as [[a ->]|Hother].
    { destruct data as [[ty a]| | | | | | | | |];
        try (right; intros [? ?]; done).
      destruct (decide (ty = ModConflictNotFound)) as [->|];
        [left; by exists a | right; intros [? ?]; by simplify_eq]. }
    + destruct self as [[] errs w], a as [|h [|h' a]];
        cbv in Hin; try by apply elem_of_nil in Hin.
      apply elem_of_cons in Hin as [Hin|Hin]; [done|].
      apply list_elem_of_singleton in Hin. by simplify_eq.
    + exfalso.
      assert (quiet no_install (handler (Some data))) as Hq.
      { apply handler_quiet; try done.
        - intros [ty a] ->. apply handle_quiet_install. intros Hty.
          apply Hother. exists a. simpl in Hty. by subst ty.
        - intros. by apply show_errors_quiet. }
      specialize (Hq self). rewrite Forall_forall in Hq.
      by specialize (Hq _ Hin).
  - intros title content Hin.
    assert (quiet only_errors_dialog (handler (Some data))) as Hq.
    { apply handler_quiet; try done.
      - intros. apply handle_quiet_errors_dialog.
      - intros. by apply show_errors_quiet. }
    specialize (Hq self). rewrite Forall_forall in Hq.
    split; [|exact (Hq _ Hin)].
    destruct (flushes data) eqn:Hflush; [done|]. exfalso.
    assert (quiet no_error_dialog (handler (Some data))) as Hq'.
    { apply handler_quiet; try done.
      - intros n ->. by apply handle_quiet_no_dialog.
      - by intros ? ->. }
    specialize (Hq' self). rewrite Forall_forall in Hq'.
    exact (Hq' _ Hin).
Qed.

#[local] Instance same_buffer_refl : Reflexive same_buffer.
Proof. by intros self. Qed.

#[local] Instance same_buffer_trans : Transitive same_buffer.
Proof. intros s1 s2 s3 [? ?] [? ?]. split; congruence. Qed.

#[local] Instance same_or_flushed_refl : Reflexive same_or_flushed.
Proof. intros self. split; [done|by left]. Qed.

#[local] Instance same_or_flushed_trans : Transitive same_or_flushed.
Proof.
  intros s1 s2 s3 [Hc [He|He]] [Hc' [He'|He']]; split; try congruence;
    first [left; congruence | right; congruence].
Qed.

Lemma keeps_weaken {A} (m : M A) : keeps same_buffer m → keeps same_or_flushed m.
Proof. intros Hm self. destruct (Hm self). split; [done|by left]. Qed.

Lemma set_installed_keeps (modHash : value) (b : bool) :
  keeps same_buffer (set_installed modHash b).
Proof. intros self. unfold set_installed. by destruct modHash. Qed.

Lemma on_mods_keeps (f : Mods → Mods) (e : event) :
  keeps same_buffer (on_mods f e).
Proof. by intros self. Qed.

Lemma addMods_keeps (modsData : list (gmap string value)) :
  keeps same_buffer (addMods addMod modsData).
Proof.
  induction modsData as [|modData rest IH]; simpl.
  - by apply still_keeps.
  - apply bind_keeps; [apply _ | apply on_mods_keeps | by intros _].
Qed.

(** After [showErrorNotifications] the buffer is empty, however it ends. *)
Lemma show_errors_flushes (self : ModLoader) :
  controller (show_errors self).1.2 = controller self
  ∧ errors (show_errors self).1.2 = []
  ∧ modsWidget (show_errors self).1.2 = modsWidget self.
Proof.
  unfold showErrorNotifications.
  cbv [mbind M_bind bind get_self put_self lift call ret].
  case_bool_decide as Hne.
  - destruct (error_lines _ _ _) as [lines|e]; [|done].
    by case_bool_decide.
  - simpl. split; [done|]. split; [|done].
    destruct (errors self); [done|]. by destruct Hne.
Qed.

Lemma show_errors_keeps : keeps same_or_flushed show_errors.
Proof.
  intros self. destruct (show_errors_flushes self) as (? & ? & _).
  split; [done|by right].
Qed.

(** Proves that a handler step leaves the buffer alone. *)
Ltac keeps_tac :=
  repeat first
    [ apply show_errors_keeps
    | apply addMods_keeps
    | apply set_installed_keeps
    | apply on_mods_keeps
    | apply keeps_weaken;
        first [apply addMods_keeps | apply set_installed_keeps
              | apply on_mods_keeps]
    | apply bind_keeps; [apply _ | |intros ?]
    | apply still_keeps; [apply _|]; intros ?;
        cbv [ret lift get_self call calls mods_getitem
             selectedModButton_updateData mret M_ret];
        repeat case_match; reflexivity
    | match goal with
      | |- keeps _ (if ?b then _ else _) => destruct b
      | |- keeps _ (match ?p with (_, _) => _ end) => destruct p
      end ].

Lemma handle_keeps_buffer (notification : Notification) :
  buffered (Notification_ notification) = None →
  flushes (Notification_ notification) = false →
  keeps same_buffer (handle notification).
Proof.
  destruct notification as [ty a]. cbn [buffered flushes notificationType].
  unfold handleNotification, progress_step.
  destruct ty; cbn [soft_error]; try done; intros _ _;
    cbn [notificationType args soft_error]; keeps_tac.
Qed.

Lemma handle_keeps_or_flushes (notification : Notification) :
  buffered (Notification_ notification) = None →
  keeps same_or_flushed (handle notification).
Proof.
  destruct notification as [ty a]. cbn [buffered notificationType].
  unfold handleNotification, progress_step.
  destruct ty; cbn [soft_error]; try done; intros _;
    cbn [notificationType args soft_error]; keeps_tac.
Qed.

Lemma handler_keeps (R : ModLoader → ModLoader → Prop)
    `{!Reflexive R, !Transitive R} (data : Data) :
  (∀ notification, data = Notification_ notification →
     keeps R (handle notification)) →
  (∀ modsData, data = GetModsData modsData → keeps R show_errors) →
  (∀ m : M unit, keeps same_buffer m → keeps R m) →
  keeps R (handler (Some data)).
Proof.
  intros Hn Hshow Hweak. unfold controllerHandler, started.
  apply bind_keeps; [apply _ | by apply still_keeps |]. intros self.
  destruct (negb (controller self)); [by apply still_keeps|].
  destruct data; try (by apply Hn);
    repeat first
      [ by eapply Hshow
      | apply Hweak; apply addMods_keeps
      | apply Hweak; apply on_mods_keeps
      | apply bind_keeps; [apply _ | |intros ?]
      | apply still_keeps; [apply _|]; intros ?;
          cbv [ret lift get_self call calls mods_getitem mret M_ret];
          repeat case_match; reflexivity
      | match goal with
        | |- keeps _ (if ?b then _ else _) => destruct b
        end ].
Qed.

(** X14. For every state and every piece of data the handler leaves
    [self.controller] as it was, and [self.errors] changes in one of two
    ways only: a soft-error notification is appended (when a controller is
    there), and at an install-finished, uninstall-finished or mods-data
    event the buffer may be emptied; any other data leaves it as it was.
    Without a controller the handler does nothing at all. *)
Theorem X14_handler_buffer_discipline :
  ∀ (data : Data) (self : ModLoader),
    let self' := (handler (Some data) self).1.2 in
    controller self' = controller self
    ∧ match buffered data with
      | Some notification =>
          errors self' = if controller self
                         then errors self ++ [notification] else errors self
      | None =>
          if flushes data
          then errors self' = errors self ∨ errors self' = []
          else errors self' = errors self
      end
    ∧ (controller self = false →
       handler (Some data) self = (Returned (), self, [])).
Proof.
  intros data self self'. subst self'.
  assert (controller self = false →
          handler (Some data) self = (Returned (), self, [])) as Hoff.
  { intros Hc. unfold controllerHandler.
    cbv [mbind M_bind bind get_self ret]. by rewrite Hc. }
  split; [|split; [|done]].
  - destruct (buffered data) as [n|] eqn:Hb.
    + destruct data as [n'| | | | | | | | |]; try done. simpl in Hb.
      destruct (soft_error (notificationType n')) eqn:Hsoft; [|done].
      destruct self as [[] errs w]; [|by rewrite Hoff].
      by rewrite (handler_buffers_soft_error repr_strs repr_notification
                    addMod removeAllMods n' errs w Hsoft).
    + assert (keeps same_or_flushed (handler (Some data))) as Hk.
      { apply handler_keeps; [apply _..| | |apply @keeps_weaken].
        - intros n ->. by apply handle_keeps_or_flushes.
        - intros. apply show_errors_keeps. }
      by destruct (Hk self).
  - destruct (buffered data) as [n|] eqn:Hb.
    + destruct data as [n'| | | | | | | | |]; try done. simpl in Hb.
      destruct (soft_error (notificationType n')) eqn:Hsoft; [|done].
      simplify_eq.
      destruct self as [[] errs w]; [|by rewrite Hoff].
      by rewrite (handler_buffers_soft_error repr_strs repr_notification
                    addMod removeAllMods n errs w Hsoft).
    + destruct (flushes data) eqn:Hflush.
      * assert (keeps same_or_flushed (handler (Some data))) as Hk.
        { apply handler_keeps; [apply _..| | |apply @keeps_weaken].
          - intros n ->. by apply handle_keeps_or_flushes.
          - intros. apply show_errors_keeps. }
        by destruct (Hk self).
      * assert (keeps same_buffer (handler (Some data))) as Hk.
        { apply handler_keeps; [apply _..| | |done].
          - intros n ->. by apply handle_keeps_buffer.
          - by intros ? ->. }
        by destruct (Hk self).
Qed.

Lemma conflict_content_lines (reg : gmap string ModClass)
    (hashes : list string) : ∀ content,
  conflict_content reg content hashes
    = (content +:+ foldr String.append "" (conflict_line reg <$> hashes),
       (λ _, Print "ERROR Один из установленных модов не найден в модлодере!")
         <$> filter (λ h, reg !! h = None) hashes).
Proof.
  induction hashes as [|h hashes IH]; intros content.
  - simpl. by rewrite app_nil_r_str.
  - cbn [conflict_content fmap list_fmap foldr]. rewrite filter_cons.
    unfold conflict_line at 1. destruct (reg !! h) as [c|] eqn:Hh.
    + rewrite IH. rewrite decide_False by done.
      by rewrite !app_assoc_str.
    + rewrite IH. rewrite decide_True by done.
      by rewrite !app_assoc_str.
Qed.

(** Runs the handler monad up to the next call that is stuck. *)
Ltac run_handler :=
  cbn -[showErrorNotifications addMods conflict_content];
  cbv [mbind M_bind bind get_self put_self lift call calls ret
       mods_getitem set_installed selectedModButton_updateData
       negb controller errors modsWidget mods selectedModButton
       notificationType args].

(** X15. A [ModConflict] notification with the hash of the mod and the list
    of conflicting hashes: the handler sends no command to the engine; it
    fills the accept dialog with the text [Mods:] and one line per
    conflicting hash, in order (the name of the mod when the hash is in the
    dictionary, [UNKNOWN MOD:] and the hash when not, each unknown hash also
    printed as an error), arms its accept button with the install of the
    mod, hides the progress dialog and shows the accept dialog. *)
Theorem X15_conflict_dialog_lists_every_hash :
  ∀ (errs : list Notification) (w : Mods) (modHash : value)
    (modConflictHashes : list string),
    handler
      (Some (Notification_
               (mkNotification ModConflict [modHash; Strs modConflictHashes])))
      (mkModLoader true errs w)
    = (Returned (), mkModLoader true errs w,
       AcceptSetTitle "Conflict mods!"
       :: ((λ _, Print "ERROR Один из установленных модов не найден в модлодере!")
             <$> filter (λ h, mods w !! h = None) modConflictHashes)
       ++ [AcceptSetContent
             ("Mods:" +:+ foldr String.append ""
                            (conflict_line (mods w) <$> modConflictHashes));
           AcceptSetAccept modHash; AcceptSetCancel; ProgressHide; AcceptShow]).
Proof.
  intros errs [reg sel] modHash hashes.
  unfold controllerHandler, handleNotification, iterate. run_handler.
  by rewrite conflict_content_lines.
Qed.

(** X16. An install-finished or uninstall-finished notification for a hash
    that is not in the dictionary of mods: the handler raises [KeyError]
    before anything else; no widget is touched, the buffered errors are
    neither shown nor cleared. *)
Theorem X16_finished_for_an_unknown_mod :
  ∀ (errs : list Notification) (w : Mods) (h : string) (rest : list value)
    (install : bool),
    mods w !! h = None →
    handler
      (Some (Notification_
               (mkNotification
                  (if install then InstallingModFinished
                   else UninstallingModFinished) (Str h :: rest))))
      (mkModLoader true errs w)
    = (Raised KeyError, mkModLoader true errs w, []).
Proof.
  intros errs [reg sel] h rest install Hh. simpl in Hh.
  unfold controllerHandler, handleNotification.
  destruct install; run_handler; by rewrite Hh.
Qed.

(** X17. An install-finished or uninstall-finished notification for a
    known mod while no mod button is selected: the installed flag of the mod
    is written and the list is refreshed, then the handler raises
    [AttributeError]; the progress dialog is not hidden and the buffered
    errors are neither shown nor cleared. *)
Theorem X17_finished_without_a_selected_button :
  ∀ (errs : list Notification) (reg : gmap string ModClass) (h : string)
    (rest : list value) (c : ModClass) (install : bool),
    reg !! h = Some c →
    handler
      (Some (Notification_
               (mkNotification
                  (if install then InstallingModFinished
                   else UninstallingModFinished) (Str h :: rest))))
      (mkModLoader true errs (mkMods reg false))
    = (Raised AttributeError,
       mkModLoader true errs
         (mkMods (alter (λ c, mkModClass (name c) install) h reg) false),
       [ModsUpdateData]).
Proof.
  intros errs reg h rest c install Hh.
  unfold controllerHandler, handleNotification.
  destruct install; run_handler; by rewrite Hh.
Qed.

Lemma error_string_short (n : Notification) :
  length (args n) < args_needed (notificationType n) →
  error_string repr_strs n = Raised IndexError.
Proof.
  destruct n as [ty [|a0 [|a1 [|a2 [|a3 a]]]]]; destruct ty; simpl;
    intros Hlen; try lia; reflexivity.
Qed.

Lemma error_string_raises (n : Notification) (e : exn) :
  error_string repr_strs n = Raised e → e = IndexError.
Proof.
  destruct n as [ty [|a0 [|a1 [|a2 [|a3 a]]]]]; destruct ty; cbv;
    intros He; by simplify_eq.
Qed.

Lemma error_lines_short (buf : list Notification) :
  Exists (λ n, length (args n) < args_needed (notificationType n)) buf →
  error_lines repr_strs repr_notification buf = Raised IndexError.
Proof.
  induction buf as [|n buf IH]; intros Hex; [by inversion Hex|]. simpl.
  destruct (error_string repr_strs n) as [text|e] eqn:Hn.
  - inversion Hex as [? ? Hshort|? ? Hrest]; subst.
    + by rewrite (error_string_short n Hshort) in Hn.
    + by rewrite (IH Hrest).
  - by rewrite (error_string_raises n e Hn).
Qed.

(** X18. When one buffered notification has fewer arguments than its text
    reads, [showErrorNotifications] raises [IndexError] after it has emptied
    the buffer and before it shows anything: all buffered errors are lost
    without a report. *)
Theorem X18_short_notification_loses_the_buffer :
  ∀ (c : bool) (buf : list Notification) (w : Mods),
    Exists (λ n, length (args n) < args_needed (notificationType n)) buf →
    show_errors (mkModLoader c buf w)
      = (Raised IndexError, mkModLoader c [] w, []).
Proof.
  intros c buf w Hex. unfold showErrorNotifications.
  cbv [mbind M_bind bind get_self put_self lift call ret errors controller
       modsWidget].
  rewrite bool_decide_eq_true_2 by (intros ->; by inversion Hex).
  by rewrite (error_lines_short buf Hex).
Qed.

(** X19. An install-finished (uninstall-finished) notification for a known
    mod with a selected button sets the installed flag of that mod to true
    (false) and keeps its name; every other mod, and the selection, are as
    before, and the buffer is empty afterwards, whether or not the report
    could be made. *)
Theorem X19_finished_sets_the_installed_flag :
  ∀ (errs : list Notification) (reg : gmap string ModClass) (h : string)
    (rest : list value) (c : ModClass) (install : bool),
    reg !! h = Some c →
    let self' :=
      (handler
         (Some (Notification_
                  (mkNotification
                     (if install then InstallingModFinished
                      else UninstallingModFinished) (Str h :: rest))))
         (mkModLoader true errs (mkMods reg true))).1.2 in
    mods (modsWidget self') !! h = Some (mkModClass (name c) install)
    ∧ (∀ h', h' ≠ h → mods (modsWidget self') !! h' = reg !! h')
    ∧ selectedModButton (modsWidget self') = true
    ∧ errors self' = [].
Proof.
  intros errs reg h rest c install Hh self'. subst self'.
  unfold controllerHandler, handleNotification.
  destruct install; run_handler; rewrite Hh;
    match goal with
    | |- context [show_errors ?s] =>
        destruct (show_errors_flushes s) as (_ & Herr & Hw);
        destruct (show_errors s) as [[r [c' errs' w']] evs]
    end;
    simpl in *; subst;
    (split; [by rewrite lookup_alter_eq, Hh|]);
    (split; [intros h' Hne; by rewrite lookup_alter_ne|done]).
Qed.

End RouterMoreFacts.

(** ** The names [fileImport] makes for the copies *)

Section CopyNameFacts.
Import Py OsPath Effects Imports.

(** X20. For a path [dir/stem.ext] whose [stem] has no slash and is not
    made of dots only and whose [ext] has neither dot nor slash, the names
    [fileImport] tries in the mods directory are [stem (i).ext]: the copy
    keeps the extension of the source. *)
Theorem X20_numbered_copy_keeps_the_extension :
  ∀ (dir stem ext : string) (i : nat),
    contains "/" stem = false → lstrip "." stem ≠ "" →
    contains "/" ext = false → contains "." ext = false →
    let filePath := dir +:+ "/" +:+ stem +:+ "." +:+ ext in
    (split filePath).2 = stem +:+ "." +:+ ext
    ∧ splitext (split filePath).2 = (stem, "." +:+ ext)
    ∧ numbered (splitext (split filePath).2) i
        = stem +:+ " (" +:+ pretty i +:+ ")." +:+ ext.
Proof.
  intros dir stem ext i Hstem Hdots Hext Hextdot filePath.
  assert (contains "/" (stem +:+ String "." ext) = false) as Hname.
  { rewrite contains_app. simpl. rewrite Hstem, Hext. by repeat case_decide. }
  assert ((split filePath).2 = stem +:+ String "." ext) as Htail.
  { unfold split, filePath.
    change (dir +:+ "/" +:+ stem +:+ "." +:+ ext)
      with (dir +:+ String "/" (stem +:+ String "." ext)).
    by rewrite (rcut_at_last "/" dir _ Hname). }
  assert (splitext (stem +:+ String "." ext) = (stem, String "." ext)) as Hsplit.
  { unfold splitext. rewrite (rcut_without "/" _ Hname).
    rewrite (rcut_at_last "." stem ext Hextdot).
    by rewrite decide_False. }
  split; [done|]. rewrite Htail, Hsplit. split; [done|].
  unfold numbered. reflexivity.
Qed.

(** X21. A file whose name is dots followed by a dot-free text, such as
    [.bmod], has no extension for [os.path.splitext]: the names tried for
    its copies are the whole name followed by the counter, [.bmod (1)], so
    the copy does not end with what looked like the extension. *)
Theorem X21_dot_file_copy_loses_the_extension :
  ∀ (dir dots rest : string) (i : nat),
    all_char "." dots = true →
    contains "/" rest = false → contains "." rest = false →
    let name := dots +:+ "." +:+ rest in
    let filePath := dir +:+ "/" +:+ name in
    splitext (split filePath).2 = (name, "")
    ∧ numbered (splitext (split filePath).2) i
        = name +:+ " (" +:+ pretty i +:+ ")".
Proof.
  intros dir dots rest i Hdots Hrest Hrestdot name filePath.
  assert (contains "/" dots = false) as Hd.
  { clear -Hdots. induction dots as [|d dots IH]; [done|]. simpl in *.
    case_decide as H1; [|done]. subst d. case_decide; [done|]. by apply IH. }
  assert (contains "/" (dots +:+ String "." rest) = false) as Hname.
  { rewrite contains_app. simpl. rewrite Hd, Hrest. by repeat case_decide. }
  assert ((split filePath).2 = dots +:+ String "." rest) as Htail.
  { unfold split, filePath, name.
    change (dir +:+ "/" +:+ dots +:+ "." +:+ rest)
      with (dir +:+ String "/" (dots +:+ String "." rest)).
    by rewrite (rcut_at_last "/" dir _ Hname). }
  assert (lstrip "." dots = "") as Hstrip.
  { clear -Hdots. induction dots as [|d dots IH]; [done|]. simpl in *.
    case_decide; [by apply IH|done]. }
  assert (splitext (dots +:+ String "." rest) = (dots +:+ String "." rest, ""))
    as Hsplit.
  { unfold splitext. rewrite (rcut_without "/" _ Hname).
    rewrite (rcut_at_last "." dots rest Hrestdot).
    by rewrite decide_True. }
  rewrite Htail, Hsplit. split; [done|].
  unfold numbered. simpl. by rewrite app_nil_r_str.
Qed.

End CopyNameFacts.

(** ** The further properties at work on concrete situations *)

Section MoreExamples.
Import Py Effects.

(** Two links are queued while the network is down: the first import
    raises out of [queueUrl], the second link stays queued and the reading
    flag stays up. *)
Example queueUrl_stops_at_the_first_failure :
  Slots.queueUrl 3 Samples.offline "bmod" Samples.loader
      ImportQueueModel.GenStart
      (ImportQueueModel.mkImportQueue ["bhmod://s,1,2"; "bhmod://s,3,4"]
         (Some ImportQueueModel.queueUrlSignal) false [] None false)
      Samples.fs_empty_mods
    = Some (Raised FileNotFoundError, ImportQueueModel.GenYield,
            ImportQueueModel.mkImportQueue ["bhmod://s,3,4"]
              (Some ImportQueueModel.queueUrlSignal) true [] None false,
            Samples.fs_empty_mods,
            Imports.url_head
            ++ [UrlRetrieve "http://gamebanana.com/dl/2" "/app/Mods/_mod.archive";
                ShowError "Unpack error:" "Traceback"]).
Proof. vm_compute. reflexivity. Qed.





Lemma X9_witness_link :
  Imports.parse_url "bhmod://skin,123,456/"
    = Returned (Some "http://gamebanana.com/dl/456").
Proof.
  exact (X9_parse_url_of_a_well_formed_link "bhmod" "//" "/" "skin" "123" "456"
           eq_refl eq_refl eq_refl eq_refl eq_refl eq_refl eq_refl eq_refl).
Defined.

Lemma X10_witness_zip :
  Imports.urlImport Samples.zip_world "bmod" Samples.loader Samples.fs_empty_mods
      "scheme://tag,123,456"
    = (Returned (),
       delete "/app/Mods/_mod.archive"
         (<["/app/Mods/_mod.archive" := OsPath.File "PK-archive"]>
            Samples.fs_empty_mods),
       Imports.url_head
       ++ [UrlRetrieve "http://gamebanana.com/dl/456" "/app/Mods/_mod.archive";
           ArchiveOpen Zip "/app/Mods/_mod.archive"]
       ++ Traces.extract_steps "bmod" Zip "/app/Mods"
            ["a.bmod"; "readme.txt"; "skins/b.bmod"]
       ++ [SetLoadingScreen; CtlReloadMods; CtlGetModsData; ProgressHide]).
Proof.
  refine (proj1 (X10_urlImport_successful_run Samples.zip_world "bmod"
                   Samples.loader Samples.fs_empty_mods "scheme://tag,123,456"
                   "http://gamebanana.com/dl/456" "PK-archive"
                   ["a.bmod"; "readme.txt"; "skins/b.bmod"]
                   eq_refl eq_refl _ eq_refl _ eq_refl)).
  - discriminate.
  - repeat constructor.
Defined.

Lemma X11_witness_unrar_missing :
  Imports.urlImport MoreSamples.rar_world "bmod" Samples.loader
      Samples.fs_empty_mods "scheme://tag,123,456"
    = (Returned (),
       delete "/app/Mods/_mod.archive"
         (<["/app/Mods/_mod.archive" := OsPath.File "Rar!archive"]>
            Samples.fs_empty_mods),
       Imports.url_head
       ++ [UrlRetrieve "http://gamebanana.com/dl/456" "/app/Mods/_mod.archive";
           ArchiveOpen Rar "/app/Mods/_mod.archive"]
       ++ Traces.extract_steps "bmod" Rar "/app/Mods" ["a.bmod"]
       ++ Traces.extract_step Rar "/app/Mods" "b.bmod"
       ++ [ShowError "Unpack error:" "WinRar 'unrar.exe' not found"]).
Proof.
  refine (X11_urlImport_extraction_failure MoreSamples.rar_world "bmod"
            Samples.loader Samples.fs_empty_mods "scheme://tag,123,456"
            "http://gamebanana.com/dl/456" "Rar!archive" "b.bmod"
            ["a.bmod"] ["c.bmod"] RarCannotExec
            eq_refl eq_refl _ eq_refl _ eq_refl eq_refl).
  - discriminate.
  - repeat constructor.
Defined.

Lemma X12_witness_stale_scratch :
  (Imports.urlImport Samples.offline "bmod" Samples.loader MoreSamples.fs_stale
     "scheme://tag,123,456").1.1 = Returned ()
  ∧ (Imports.urlImport Samples.offline "bmod" Samples.loader MoreSamples.fs_stale
       "scheme://tag,123,456").1.2 !! "/app/Mods/_mod.archive" = None.
Proof.
  apply (X12_urlImport_removes_an_existing_scratch_file Samples.offline "bmod"
           Samples.loader MoreSamples.fs_stale "scheme://tag,123,456"
           "http://gamebanana.com/dl/456" eq_refl).
  right. by exists "old".
Defined.

Lemma X16_witness_unknown_mod :
  Router.controllerHandler Samples.repr_strs Samples.repr_notification
      Samples.addMod Samples.removeAllMods
      (Some (Router.Notification_
               (Router.mkNotification Router.InstallingModFinished [Str "h2"])))
      (Router.mkModLoader true Samples.three_soft_errors Samples.one_mod)
    = (Raised KeyError,
       Router.mkModLoader true Samples.three_soft_errors Samples.one_mod, []).
Proof.
  exact (X16_finished_for_an_unknown_mod Samples.repr_strs
           Samples.repr_notification Samples.addMod Samples.removeAllMods
           Samples.three_soft_errors Samples.one_mod "h2" [] true eq_refl).
Defined.

Lemma X17_witness_no_selection :
  Router.controllerHandler Samples.repr_strs Samples.repr_notification
      Samples.addMod Samples.removeAllMods
      (Some (Router.Notification_
               (Router.mkNotification Router.InstallingModFinished [Str "h1"])))
      (Router.mkModLoader true Samples.three_soft_errors
         (Router.mkMods MoreSamples.one_mod_dict false))
    = (Raised AttributeError,
       Router.mkModLoader true Samples.three_soft_errors
         (Router.mkMods
            (alter (λ c, Router.mkModClass (Router.name c) true) "h1"
               MoreSamples.one_mod_dict) false),
       [ModsUpdateData]).
Proof.
  exact (X17_finished_without_a_selected_button Samples.repr_strs
           Samples.repr_notification Samples.addMod Samples.removeAllMods
           Samples.three_soft_errors MoreSamples.one_mod_dict "h1" []
           (Router.mkModClass "Mod One" false) true eq_refl).
Defined.

Lemma X18_witness_short_notification :
  Router.showErrorNotifications Samples.repr_strs Samples.repr_notification
      (Router.mkModLoader true
         (Samples.three_soft_errors ++ [MoreSamples.short_error]) Samples.one_mod)
    = (Raised IndexError, Router.mkModLoader true [] Samples.one_mod, []).
Proof.
  apply (X18_short_notification_loses_the_buffer Samples.repr_strs
           Samples.repr_notification true
           (Samples.three_soft_errors ++ [MoreSamples.short_error])
           Samples.one_mod).
  do 3 apply Exists_cons_tl. apply Exists_cons_hd. simpl. lia.
Defined.

Lemma X19_witness_installed :
  let self' :=
    (Router.controllerHandler Samples.repr_strs Samples.repr_notification
       Samples.addMod Samples.removeAllMods
       (Some (Router.Notification_
                (Router.mkNotification Router.InstallingModFinished [Str "h1"])))
       (Router.mkModLoader true [] (Router.mkMods MoreSamples.one_mod_dict true))).1.2 in
  Router.mods (Router.modsWidget self') !! "h1"
    = Some (Router.mkModClass "Mod One" true).
Proof.
  exact (proj1 (X19_finished_sets_the_installed_flag Samples.repr_strs
                  Samples.repr_notification Samples.addMod Samples.removeAllMods
                  [] MoreSamples.one_mod_dict "h1" []
                  (Router.mkModClass "Mod One" false) true eq_refl)).
Defined.

Lemma X20_witness_a_bmod :
  Imports.numbered (OsPath.splitext (OsPath.split "/home/user/a.bmod").2) 1
    = "a (1).bmod".
Proof.
  exact (proj2 (proj2 (X20_numbered_copy_keeps_the_extension "/home/user" "a"
                         "bmod" 1 eq_refl ltac:(discriminate) eq_refl eq_refl))).
Defined.

Lemma X21_witness_dot_bmod :
  Imports.numbered (OsPath.splitext (OsPath.split "/home/user/.bmod").2) 1
    = ".bmod (1)".
Proof.
  exact (proj2 (X21_dot_file_copy_loses_the_extension "/home/user" "" "bmod" 1
                  eq_refl eq_refl eq_refl)).
Defined.

End MoreExamples.
